(** * Monitoring and alerting engine: health checks, incidents, alerts,
      automatic restart and uptime aggregation.

    Shallow embedding of [server/models/DeployedApp.js] (the methods of the
    [DeployedApp] document) and [server/services/MonitoringService.js]
    (the check cycle, the aggregation job and the cleanup job), with the
    severity rule of [server/services/NotificationService.js].

    Conventions of the embedding:
    - JavaScript integers (counters, millisecond timestamps, HTTP status
      codes) are [Z]; the two fields that hold quotients
      ([uptimePercentage], [responseTime.average]) are exact rationals [Q];
    - strings are [string], compared with [String.eqb] where the source
      uses [===];
    - a Mongoose document is mutated in place and written back by [save()]:
      the state carries the in-memory document [doc] and the persisted copy
      [stored];
    - [save()] may reject, [Date.now()] reads a clock, ids draw on a random
      source: these are fields of [World], consumed as the code runs;
    - exceptions (promise rejections) are the [Throw] result of the monad
      [M]; a mutation made before a throw stays made, as in JavaScript. *)

From Stdlib Require Import ZArith QArith List Ascii String Bool Lia DecimalString.
Import ListNotations.

Open Scope Z_scope.
Open Scope string_scope.

(** ** Data model (the Mongoose schema of [DeployedApp]) *)

Record Incident := {
  inc_oid : Z;                  (* Mongoose subdocument key [_id] *)
  inc_id : string;              (* [id] *)
  inc_type : string;            (* [type] *)
  severity : string;
  startTime : Z;
  endTime : option Z;
  duration : option Z;          (* in seconds *)
  resolved : bool;
  description : string
}.

Record ResponseTime := {
  current : Z;
  average : Q;
  p95 : Z
}.

Record Monitoring := {
  uptimePercentage : Q;
  responseTime : ResponseTime;
  checksPerformed : Z;
  consecutiveFailures : Z;
  lastFailure : option Z;
  incidents : list Incident
}.

Record Deployment := {
  url : option string;
  customDomain : option string
}.

Record Configuration := {
  autoRestart : bool;
  maxRestartAttempts : Z;
  healthCheckPath : string;
  healthCheckInterval : Z;
  timeout : Z
}.

Record App := {
  appId : string;
  userId : string;
  appName : string;
  deploymentStatus : string;
  healthStatus : string;
  monitoringEnabled : bool;
  lastCheck : Z;
  deployment : Deployment;
  monitoring : Monitoring;
  configuration : Configuration;
  isActive : bool
}.

(** Field assignments ([this.x = v]). *)

Definition set_healthStatus (v : string) (a : App) : App :=
  {| appId := appId a; userId := userId a; appName := appName a;
     deploymentStatus := deploymentStatus a; healthStatus := v;
     monitoringEnabled := monitoringEnabled a; lastCheck := lastCheck a;
     deployment := deployment a; monitoring := monitoring a;
     configuration := configuration a; isActive := isActive a |}.

Definition set_lastCheck (v : Z) (a : App) : App :=
  {| appId := appId a; userId := userId a; appName := appName a;
     deploymentStatus := deploymentStatus a; healthStatus := healthStatus a;
     monitoringEnabled := monitoringEnabled a; lastCheck := v;
     deployment := deployment a; monitoring := monitoring a;
     configuration := configuration a; isActive := isActive a |}.

Definition set_monitoring (m : Monitoring) (a : App) : App :=
  {| appId := appId a; userId := userId a; appName := appName a;
     deploymentStatus := deploymentStatus a; healthStatus := healthStatus a;
     monitoringEnabled := monitoringEnabled a; lastCheck := lastCheck a;
     deployment := deployment a; monitoring := m;
     configuration := configuration a; isActive := isActive a |}.

Definition set_configuration (c : Configuration) (a : App) : App :=
  {| appId := appId a; userId := userId a; appName := appName a;
     deploymentStatus := deploymentStatus a; healthStatus := healthStatus a;
     monitoringEnabled := monitoringEnabled a; lastCheck := lastCheck a;
     deployment := deployment a; monitoring := monitoring a;
     configuration := c; isActive := isActive a |}.

Definition set_maxRestartAttempts (v : Z) (c : Configuration) : Configuration :=
  {| autoRestart := autoRestart c; maxRestartAttempts := v;
     healthCheckPath := healthCheckPath c;
     healthCheckInterval := healthCheckInterval c; timeout := timeout c |}.

Definition set_uptimePercentage (v : Q) (m : Monitoring) : Monitoring :=
  {| uptimePercentage := v; responseTime := responseTime m;
     checksPerformed := checksPerformed m;
     consecutiveFailures := consecutiveFailures m;
     lastFailure := lastFailure m; incidents := incidents m |}.

Definition set_responseTime (v : ResponseTime) (m : Monitoring) : Monitoring :=
  {| uptimePercentage := uptimePercentage m; responseTime := v;
     checksPerformed := checksPerformed m;
     consecutiveFailures := consecutiveFailures m;
     lastFailure := lastFailure m; incidents := incidents m |}.

Definition set_checksPerformed (v : Z) (m : Monitoring) : Monitoring :=
  {| uptimePercentage := uptimePercentage m; responseTime := responseTime m;
     checksPerformed := v;
     consecutiveFailures := consecutiveFailures m;
     lastFailure := lastFailure m; incidents := incidents m |}.

Definition set_consecutiveFailures (v : Z) (m : Monitoring) : Monitoring :=
  {| uptimePercentage := uptimePercentage m; responseTime := responseTime m;
     checksPerformed := checksPerformed m;
     consecutiveFailures := v;
     lastFailure := lastFailure m; incidents := incidents m |}.

Definition set_lastFailure (v : option Z) (m : Monitoring) : Monitoring :=
  {| uptimePercentage := uptimePercentage m; responseTime := responseTime m;
     checksPerformed := checksPerformed m;
     consecutiveFailures := consecutiveFailures m;
     lastFailure := v; incidents := incidents m |}.

Definition set_incidents (v : list Incident) (m : Monitoring) : Monitoring :=
  {| uptimePercentage := uptimePercentage m; responseTime := responseTime m;
     checksPerformed := checksPerformed m;
     consecutiveFailures := consecutiveFailures m;
     lastFailure := lastFailure m; incidents := v |}.

Definition set_current (v : Z) (r : ResponseTime) : ResponseTime :=
  {| current := v; average := average r; p95 := p95 r |}.

Definition set_average (v : Q) (r : ResponseTime) : ResponseTime :=
  {| current := current r; average := v; p95 := p95 r |}.

(** Shorthands for the nested reads [app.monitoring.x]. *)

Definition failures (a : App) : Z := consecutiveFailures (monitoring a).
Definition checks (a : App) : Z := checksPerformed (monitoring a).
Definition uptime (a : App) : Q := uptimePercentage (monitoring a).
Definition appIncidents (a : App) : list Incident := incidents (monitoring a).

(** ** Effects: clock, persistence, randomness, log and socket events *)

Record JsError := {
  errCode : option string;            (* [err.code] *)
  errResponseStatus : option Z;       (* [err.response.status] *)
  errMessage : string                 (* [err.message] *)
}.

Inductive Event :=
| LogDebug (msg : string)
| LogInfo (msg : string)
| LogWarn (msg : string)
| LogError (msg : string)
| AlertSent (sev status : string) (fails : Z)
| HealthUpdate (id status : string) (checkedAt rt : Z) (up : Q) (fails : Z).

Record World := {
  io : bool;                       (* is a socket server attached? *)
  clock : Z;                       (* what [Date.now()] returns *)
  rejects : list bool;             (* outcome of the next [save()] calls:
                                      [true] rejects; none left: resolves *)
  entropy : list (Z * string);     (* fresh [_id] and [Math.random] suffix *)
  trace : list Event               (* newest event first *)
}.

Definition set_clock (v : Z) (w : World) : World :=
  {| io := io w; clock := v; rejects := rejects w; entropy := entropy w;
     trace := trace w |}.

Definition set_rejects (v : list bool) (w : World) : World :=
  {| io := io w; clock := clock w; rejects := v; entropy := entropy w;
     trace := trace w |}.

Definition set_entropy (v : list (Z * string)) (w : World) : World :=
  {| io := io w; clock := clock w; rejects := rejects w; entropy := v;
     trace := trace w |}.

Definition set_trace (v : list Event) (w : World) : World :=
  {| io := io w; clock := clock w; rejects := rejects w; entropy := entropy w;
     trace := v |}.

Record State := {
  doc : App;                       (* the in-memory document *)
  stored : App;                    (* what the database holds *)
  world : World
}.

Definition set_doc (a : App) (s : State) : State :=
  {| doc := a; stored := stored s; world := world s |}.

Definition set_world (w : World) (s : State) : State :=
  {| doc := doc s; stored := stored s; world := w |}.

Inductive Res (A : Type) :=
| Ok (a : A)
| Throw (e : JsError).
Arguments Ok {A} a.
Arguments Throw {A} e.

(** Computations over the state that may throw. *)
Definition M (A : Type) : Type := State -> Res A * State.

Definition ret {A} (a : A) : M A := fun s => (Ok a, s).

Definition bind {A B} (m : M A) (k : A -> M B) : M B :=
  fun s =>
    match m s with
    | (Ok a, s') => k a s'
    | (Throw e, s') => (Throw e, s')
    end.

Definition throw {A} (e : JsError) : M A := fun s => (Throw e, s).

(** [try { m } catch (err) { h err }] *)
Definition tryCatch {A} (m : M A) (h : JsError -> M A) : M A :=
  fun s =>
    match m s with
    | (Ok a, s') => (Ok a, s')
    | (Throw e, s') => h e s'
    end.

Declare Scope js_scope.
Delimit Scope js_scope with js.
Notation "x <- m ;; k" := (bind m (fun x => k))
  (at level 100, m at next level, right associativity) : js_scope.
Notation "m ;; k" := (bind m (fun _ => k))
  (at level 100, right associativity) : js_scope.
Open Scope js_scope.

Definition exec {A} (m : M A) (s : State) : State := snd (m s).
Definition result {A} (m : M A) (s : State) : Res A := fst (m s).

Definition getDoc : M App := fun s => (Ok (doc s), s).

Definition getWorld : M World := fun s => (Ok (world s), s).

Definition modifyDoc (f : App -> App) : M unit :=
  fun s => (Ok tt, set_doc (f (doc s)) s).

Definition modifyMonitoring (f : Monitoring -> Monitoring) : M unit :=
  modifyDoc (fun a => set_monitoring (f (monitoring a)) a).

Definition modifyWorld (f : World -> World) : M unit :=
  fun s => (Ok tt, set_world (f (world s)) s).

(** [Date.now()] and [new Date()] *)
Definition Date_now : M Z := fun s => (Ok (clock (world s)), s).

(** The passing of time while a promise is awaited. *)
Definition elapse (d : Z) : M unit :=
  modifyWorld (fun w => set_clock (clock w + d) w).

Definition emit (e : Event) : M unit :=
  modifyWorld (fun w => set_trace (e :: trace w) w).

Definition saveError : JsError :=
  {| errCode := None; errResponseStatus := None; errMessage := "save failed" |}.

(** [this.save()]: writes the document back, or rejects. *)
Definition save : M unit :=
  fun s =>
    let w' := set_rejects (tl (rejects (world s))) (world s) in
    match rejects (world s) with
    | true :: _ => (Throw saveError, set_world w' s)
    | _ => (Ok tt, {| doc := doc s; stored := doc s; world := w' |})
    end.

(** The next fresh subdocument key and random suffix. *)
Definition fresh : M (Z * string) :=
  fun s =>
    (Ok (hd (0, "") (entropy (world s))),
     set_world (set_entropy (tl (entropy (world s))) (world s)) s).

Definition showZ (z : Z) : string := NilZero.string_of_int (Z.to_int z).

(** JavaScript truthiness of a string that may be absent. *)
Definition truthy (o : option string) : bool :=
  match o with
  | Some s => negb (s =? "")
  | None => false
  end.

(** [a || b] on such strings. *)
Definition orElse (a b : option string) : option string :=
  if truthy a then a else b.

(** ** [DeployedApp] methods *)

(** The [fullUrl] virtual. *)
Definition fullUrl (a : App) : option string :=
  if truthy (customDomain (deployment a))
  then option_map (fun d => "https://" ++ d) (customDomain (deployment a))
  else url (deployment a).

Definition updateHealthStatus (status : string) (rt : option Z) : M unit :=
  modifyDoc (set_healthStatus status) ;;
  t <- Date_now ;;
  modifyDoc (set_lastCheck t) ;;
  modifyMonitoring (fun m => set_checksPerformed (checksPerformed m + 1) m) ;;
  match rt with
  | Some r =>
      modifyMonitoring (fun m =>
        let totalChecks := checksPerformed m in
        let currentAvg := average (responseTime m) in
        set_responseTime
          (set_average
             ((currentAvg * inject_Z (totalChecks - 1) + inject_Z r)
              / inject_Z totalChecks)%Q
             (set_current r (responseTime m))) m)
  | None => ret tt
  end ;;
  (if status =? "up" then
     modifyMonitoring (set_consecutiveFailures 0)
   else if (status =? "down") || (status =? "warning") then
     modifyMonitoring
       (fun m => set_consecutiveFailures (consecutiveFailures m + 1) m) ;;
     t' <- Date_now ;;
     modifyMonitoring (set_lastFailure (Some t'))
   else ret tt) ;;
  modifyMonitoring (fun m =>
    let uptimeChecks := checksPerformed m - consecutiveFailures m in
    set_uptimePercentage
      (inject_Z uptimeChecks / inject_Z (Z.max (checksPerformed m) 1) * 100)%Q
      m) ;;
  save.

Definition createIncident (type sev descr : string) : M unit :=
  t <- Date_now ;;
  r <- fresh ;;
  t' <- Date_now ;;
  let incident :=
    {| inc_oid := fst r;
       inc_id := "incident_" ++ showZ t ++ "_" ++ snd r;
       inc_type := type;
       severity := sev;
       startTime := t';
       endTime := None;
       duration := None;
       description := descr;
       resolved := false |} in
  modifyMonitoring (fun m => set_incidents (incidents m ++ [incident]) m) ;;
  save.

(** The three assignments made to the incident that [incidents.id] found. *)
Definition markResolved (now : Z) (i : Incident) : Incident :=
  {| inc_oid := inc_oid i; inc_id := inc_id i; inc_type := inc_type i;
     severity := severity i; startTime := startTime i;
     endTime := Some now;
     duration := Some ((now - startTime i) / 1000);
     resolved := true;
     description := description i |}.

(** [incidents.id(incidentId)] is the first subdocument with that [_id];
    the assignments go to it, in place. *)
Fixpoint resolveIn (incidentId now : Z) (l : list Incident) : list Incident :=
  match l with
  | [] => []
  | i :: rest =>
      if (inc_oid i =? incidentId)%Z
      then markResolved now i :: rest
      else i :: resolveIn incidentId now rest
  end.

Definition resolveIncident (incidentId : Z) : M unit :=
  t <- Date_now ;;
  modifyMonitoring (fun m => set_incidents (resolveIn incidentId t (incidents m)) m) ;;
  save.

Definition shouldAutoRestart (a : App) : bool :=
  autoRestart (configuration a)
  && (consecutiveFailures (monitoring a) >=? 3)%Z
  && (healthStatus a =? "down").

(** ** [MonitoringService] *)

(** What the network does with one request: the time it takes, and either an
    HTTP response or a transport failure with its error code. *)
Inductive NetResult :=
| HttpResponse (status : Z)
| NetFailure (code : option string) (message : string).

Record NetOutcome := {
  elapsed : Z;
  netResult : NetResult
}.

(** The network, asked with a URL and a timeout in milliseconds. *)
Definition Network : Type := string -> Z -> NetOutcome.

(** [axios.get(url, {timeout, validateStatus})]: resolves with the response
    status when [validateStatus] accepts it and rejects otherwise, with the
    response attached to the error; a transport failure rejects with its
    code. *)
Definition axios_get (net : Network) (checkUrl : string) (timeoutMs : Z)
    (validateStatus : Z -> bool) : M Z :=
  let o := net checkUrl timeoutMs in
  elapse (elapsed o) ;;
  match netResult o with
  | HttpResponse st =>
      if validateStatus st then ret st
      else throw {| errCode := None; errResponseStatus := Some st;
                    errMessage := "Request failed with status code " ++ showZ st |}
  | NetFailure c msg =>
      throw {| errCode := c; errResponseStatus := None; errMessage := msg |}
  end.

(** [url.endsWith('/')] *)
Fixpoint endsWithSlash (s : string) : bool :=
  match s with
  | EmptyString => false
  | String c EmptyString => Ascii.eqb c "/"%char
  | String _ rest => endsWithSlash rest
  end.

(** [s.slice(1)] *)
Definition slice1 (s : string) : string :=
  match s with
  | EmptyString => EmptyString
  | String _ rest => rest
  end.

(** [o || d] where [o] may be absent or empty. *)
Definition orDefault (o : option string) (d : string) : string :=
  match o with
  | Some s => if s =? "" then d else s
  | None => d
  end.

(** [err.code === c] *)
Definition codeIs (e : JsError) (c : string) : bool :=
  match errCode e with
  | Some c' => c' =? c
  | None => false
  end.

(** The status chosen for a response that axios resolved with. *)
Definition classifyResponse (status : Z) : string :=
  if (status >=? 200)%Z && (status <? 400)%Z then "up"
  else if (status >=? 400)%Z && (status <? 500)%Z then "warning"
  else "down".

(** The status chosen in the [catch] branch. *)
Definition classifyError (err : JsError) : string :=
  if codeIs err "ECONNREFUSED" || codeIs err "ENOTFOUND" || codeIs err "ETIMEDOUT"
  then "down"
  else match errResponseStatus err with
       | Some st => if (st >=? 500)%Z then "down" else "warning"
       | None => "warning"
       end.

(** The outcome of the probe: the three locals [status], [responseTime] and
    [error] as they stand after the [try]/[catch]. *)
Record Probe := {
  probeStatus : string;
  probeResponseTime : Z;
  probeError : option string
}.

(** The locals [checkUrl] and [timeout] of [checkAppHealth], computed once
    the application is known to have a URL. *)
Definition checkUrlOf (app : App) : string :=
  let url := orDefault (orElse (fullUrl app) (url (deployment app))) "" in
  let healthCheckPath :=
    orDefault (Some (healthCheckPath (configuration app))) "/" in
  if endsWithSlash url then url ++ slice1 healthCheckPath
  else url ++ healthCheckPath.

Definition timeoutOf (app : App) : Z :=
  if (timeout (configuration app) * 1000 =? 0)%Z then 30000
  else timeout (configuration app) * 1000.

(** The [try]/[catch] block of [checkAppHealth]. [None] is the early
    [return] taken when the application has no URL. *)
Definition probe (net : Network) (startTime : Z) : M (option Probe) :=
  tryCatch
    (app <- getDoc ;;
     let u := orElse (fullUrl app) (url (deployment app)) in
     if negb (truthy u) then
       emit (LogWarn ("No URL found for app " ++ appId app)) ;;
       ret None
     else
       let checkUrl := checkUrlOf app in
       let timeout := timeoutOf app in
       emit (LogDebug ("Checking health for " ++ appName app ++ " at " ++ checkUrl)) ;;
       status <- axios_get net checkUrl timeout (fun st => (st <? 500)%Z) ;;
       t <- Date_now ;;
       ret (Some {| probeStatus := classifyResponse status;
                    probeResponseTime := t - startTime;
                    probeError := None |}))
    (fun err =>
       t <- Date_now ;;
       app <- getDoc ;;
       emit (LogWarn ("Health check failed for " ++ appName app ++ ": "
                      ++ errMessage err)) ;;
       ret (Some {| probeStatus := classifyError err;
                    probeResponseTime := t - startTime;
                    probeError := Some (errMessage err) |})).

(** [responseTime && responseTime > bound] *)
Definition slowerThan (bound : Z) (rt : option Z) : bool :=
  match rt with
  | Some t => negb (t =? 0)%Z && (t >? bound)%Z
  | None => false
  end.

Definition shouldSendAlert (app : App) (status : string) (rt : option Z) : bool :=
  if negb (monitoringEnabled app) then false
  else if (status =? "down") && (failures app >=? 3)%Z then true
  else if slowerThan 5000 rt && (failures app >=? 2)%Z then true
  else if (status =? "warning") && (failures app >=? 5)%Z then true
  else false.

(** [NotificationService.determineAlertSeverity] *)
Definition determineAlertSeverity (status : string) (fails : Z) (rt : option Z) : string :=
  if (status =? "down") && (fails >=? 5)%Z then "critical"
  else if status =? "down" then "high"
  else if slowerThan 10000 rt then "medium"
  else if status =? "warning" then "low"
  else "low".

(** [NotificationService.sendAlert] catches every failure of its own and
    leaves the document alone: what remains is the alert it was asked for. *)
Definition sendAlert (status : string) (rt : option Z) : M unit :=
  app <- getDoc ;;
  emit (AlertSent (determineAlertSeverity status (failures app) rt) status (failures app)).

(** [User.findOne({ userId })] *)
Inductive Lookup := UserFound | UserMissing | LookupFails.

Definition User_findOne (l : Lookup) : M bool :=
  match l with
  | UserFound => ret true
  | UserMissing => ret false
  | LookupFails =>
      throw {| errCode := None; errResponseStatus := None;
               errMessage := "user lookup failed" |}
  end.

(** The statement under the comment "Create incident if this is a new
    issue". *)
Definition openIncidentIfNew (status : string) (error : option string) : M unit :=
  app <- getDoc ;;
  if (failures app =? 1)%Z && (status =? "down") then
    createIncident "downtime" "high"
      ("Application is down: " ++ orDefault error "Unknown error")
  else ret tt.

Definition checkAlertConditions (lookup : Lookup) (status : string)
    (rt : option Z) (error : option string) : M unit :=
  tryCatch
    (user <- User_findOne lookup ;;
     if negb user then ret tt
     else
       app <- getDoc ;;
       let shouldAlert := shouldSendAlert app status rt in
       if shouldAlert then
         sendAlert status rt ;;
         openIncidentIfNew status error
       else ret tt)
    (fun err =>
       app <- getDoc ;;
       emit (LogError ("Error checking alert conditions for app " ++ appId app))).

Definition emitHealthUpdate : M unit :=
  w <- getWorld ;;
  if negb (io w) then ret tt
  else
    app <- getDoc ;;
    emit (HealthUpdate (appId app) (healthStatus app) (lastCheck app)
            (current (responseTime (monitoring app)))
            (uptimePercentage (monitoring app))
            (failures app)).

Definition simulateRestart : M unit :=
  elapse 2000 ;;
  modifyMonitoring (set_consecutiveFailures 0) ;;
  modifyDoc (set_healthStatus "up") ;;
  t <- Date_now ;;
  modifyDoc (set_lastCheck t) ;;
  save.

Definition restartAttemptLog (app : App) : Event :=
  LogInfo ("Attempting auto-restart for app " ++ appName app).

Definition attemptAutoRestart : M unit :=
  tryCatch
    (app <- getDoc ;;
     emit (restartAttemptLog app) ;;
     modifyDoc (set_healthStatus "restarting") ;;
     save ;;
     emitHealthUpdate ;;
     simulateRestart ;;
     emit (LogInfo ("Auto-restart completed for app " ++ appName app)))
    (fun err =>
       app <- getDoc ;;
       emit (LogError ("Auto-restart failed for app " ++ appId app)) ;;
       modifyDoc (set_healthStatus "down") ;;
       save ;;
       emitHealthUpdate).

Definition checkAppHealth (net : Network) (lookup : Lookup) : M unit :=
  startTime <- Date_now ;;
  probed <- probe net startTime ;;
  match probed with
  | None => ret tt
  | Some p =>
      let status := probeStatus p in
      let responseTime := Some (probeResponseTime p) in
      updateHealthStatus status responseTime ;;
      checkAlertConditions lookup status responseTime (probeError p) ;;
      app <- getDoc ;;
      (if shouldAutoRestart app then attemptAutoRestart else ret tt) ;;
      emitHealthUpdate ;;
      app' <- getDoc ;;
      emit (LogDebug ("Health check completed for " ++ appName app' ++ ": "
                      ++ status ++ " (" ++ showZ (probeResponseTime p) ++ "ms)"))
  end.

(** One check cycle of one target, as [performMonitoringChecks] and
    [performManualCheck] run it: the document is loaded from the database,
    [checkAppHealth] runs on it, and whatever it threw is dropped by
    [Promise.allSettled]. What the next cycle sees is what was saved. *)
Definition load (a : App) (w : World) : State :=
  {| doc := a; stored := a; world := w |}.

Definition checkCycle (net : Network) (lookup : Lookup) (a : App) (w : World) : State :=
  exec (checkAppHealth net lookup) (load a w).

(** The body of the loop of [aggregateHealthMetrics]. *)
Definition aggregateOne : M unit :=
  app <- getDoc ;;
  let estimatedUptime := Z.max 0 (100 - failures app * 2) in
  modifyMonitoring (set_uptimePercentage (inject_Z estimatedUptime)) ;;
  save.


Definition logTo (e : Event) (w : World) : World := set_trace (e :: trace w) w.


(** The filter of the [$pull] of [cleanupOldData]: a resolved incident that
    started before the horizon. *)
Definition isStale (horizon : Z) (i : Incident) : bool :=
  (startTime i <? horizon)%Z && resolved i.

Definition pullStale (horizon : Z) (a : App) : App :=
  set_monitoring
    (set_incidents (filter (fun i => negb (isStale horizon i)) (incidents (monitoring a)))
       (monitoring a)) a.

(** [cleanupOldData]: one [updateMany] over all documents, which may
    reject. *)
Definition cleanupOldData (updateManyRejects : bool) (db : list App) (w : World)
    : list App * World :=
  let w1 := logTo (LogInfo "Cleaning up old monitoring data...") w in
  let thirtyDaysAgo := clock w1 - 30 * 24 * 60 * 60 * 1000 in
  if updateManyRejects then
    (db, logTo (LogError "Error cleaning up old data") w1)
  else
    (map (pullStale thirtyDaysAgo) db,
     logTo (LogInfo "Old monitoring data cleanup completed") w1).

(** A document as the schema defaults make it. *)
Definition newApp (id user name : string) (now : Z) : App :=
  {| appId := id; userId := user; appName := name;
     deploymentStatus := "pending";
     healthStatus := "unknown";
     monitoringEnabled := true;
     lastCheck := now;
     deployment := {| url := None; customDomain := None |};
     monitoring :=
       {| uptimePercentage := 100;
          responseTime := {| current := 0; average := 0; p95 := 0 |};
          checksPerformed := 0;
          consecutiveFailures := 0;
          lastFailure := None;
          incidents := [] |};
     configuration :=
       {| autoRestart := true; maxRestartAttempts := 3;
          healthCheckPath := "/"; healthCheckInterval := 30; timeout := 30 |};
     isActive := true |}.

(** * Vocabulary of the properties *)

(** [m] keeps [I], whether it returns or throws. *)
Definition preserves {A} (I : State -> Prop) (m : M A) : Prop :=
  forall s, I s -> I (exec m s).

(** [P] holds of the document in memory and of the stored one. *)
Definition docInv (P : App -> Prop) (s : State) : Prop :=
  P (doc s) /\ P (stored s).

(** The document after the assignments of [updateHealthStatus], made at time
    [now]. *)
Definition observed (status : string) (rt : option Z) (now : Z) (a : App) : App :=
  let a1 := set_lastCheck now (set_healthStatus status a) in
  let m1 := set_checksPerformed (checksPerformed (monitoring a1) + 1) (monitoring a1) in
  let m2 :=
    match rt with
    | Some r =>
        set_responseTime
          (set_average
             ((average (responseTime m1) * inject_Z (checksPerformed m1 - 1)
               + inject_Z r) / inject_Z (checksPerformed m1))%Q
             (set_current r (responseTime m1))) m1
    | None => m1
    end in
  let m3 :=
    if status =? "up" then set_consecutiveFailures 0 m2
    else if (status =? "down") || (status =? "warning") then
      set_lastFailure (Some now)
        (set_consecutiveFailures (consecutiveFailures m2 + 1) m2)
    else m2 in
  set_monitoring
    (set_uptimePercentage
       (inject_Z (checksPerformed m3 - consecutiveFailures m3)
        / inject_Z (Z.max (checksPerformed m3) 1) * 100)%Q m3)
    a1.

(** Does [checkAppHealth] find a URL to probe? *)
Definition hasUrl (a : App) : bool :=
  truthy (orElse (fullUrl a) (url (deployment a))).

(** Is this event the log line that opens a restart attempt? *)
Definition isAttempt (e : Event) : bool :=
  match e with
  | LogInfo msg => prefix "Attempting auto-restart for app " msg
  | _ => false
  end.

(** The number of restart attempts a trace records. *)
Definition attempts (w : World) : nat := List.length (filter isAttempt (trace w)).

(** The trace records [n] restart attempts. *)
Definition attemptsAre (n : nat) (s : State) : Prop := attempts (world s) = n.

(** The world with more events on its trace, newest first. *)
Definition logged (evs : list Event) (s : State) : State :=
  set_world (set_trace (evs ++ trace (world s)) (world s)) s.

(** The records the engine makes of a record [a0] of the registry: each
    check cycle, aggregation run and cleanup starts from what the previous
    one saved. *)
Inductive Reachable (a0 : App) : App -> Prop :=
| reach_start : Reachable a0 a0
| reach_check (a : App) (net : Network) (lookup : Lookup) (w : World) :
    Reachable a0 a -> Reachable a0 (stored (checkCycle net lookup a w))
| reach_aggregate (a : App) (w : World) :
    Reachable a0 a -> Reachable a0 (stored (exec aggregateOne (load a w)))
| reach_cleanup (a : App) (horizon : Z) :
    Reachable a0 a -> Reachable a0 (pullStale horizon a).

(** The failure streak is a count of checks. *)
Definition countersOk (a : App) : Prop := 0 <= failures a <= checks a.

(** Is this an unresolved incident of type 'downtime'? *)
Definition isOpenDowntime (i : Incident) : bool :=
  negb (resolved i) && (inc_type i =? "downtime").

(** The number of unresolved downtime incidents of a record. *)
Definition openDowntimes (a : App) : nat :=
  List.length (filter isOpenDowntime (appIncidents a)).


(** The record with the estimate of the aggregation job in place. *)
Definition withEstimate (a : App) : App :=
  set_monitoring
    (set_uptimePercentage (inject_Z (Z.max 0 (100 - failures a * 2))) (monitoring a)) a.

(** No [save()] is going to reject. *)
Definition storeHealthy (w : World) : Prop := Forall (fun b => b = false) (rejects w).

(** None of the next [n] calls of [save()] is going to reject. *)
Definition savesResolve (n : nat) (w : World) : Prop :=
  Forall (fun b => b = false) (firstn n (rejects w)).

(** ** Sample records, worlds and networks *)

Definition set_deployment (d : Deployment) (a : App) : App :=
  {| appId := appId a; userId := userId a; appName := appName a;
     deploymentStatus := deploymentStatus a; healthStatus := healthStatus a;
     monitoringEnabled := monitoringEnabled a; lastCheck := lastCheck a;
     deployment := d; monitoring := monitoring a;
     configuration := configuration a; isActive := isActive a |}.

Definition set_deploymentStatus (v : string) (a : App) : App :=
  {| appId := appId a; userId := userId a; appName := appName a;
     deploymentStatus := v; healthStatus := healthStatus a;
     monitoringEnabled := monitoringEnabled a; lastCheck := lastCheck a;
     deployment := deployment a; monitoring := monitoring a;
     configuration := configuration a; isActive := isActive a |}.

Definition set_failures (v : Z) (a : App) : App :=
  set_monitoring (set_consecutiveFailures v (monitoring a)) a.

(** A deployed application with a URL, otherwise as created. *)
Definition deployedApp : App :=
  set_deploymentStatus "deployed"
    (set_deployment {| url := Some "https://shop.example.com"; customDomain := None |}
       (newApp "app_1" "user_1" "shop" 0)).

(** The same, last seen up. *)
Definition upApp : App := set_healthStatus "up" deployedApp.

(** An unresolved downtime incident. *)
Definition outage : Incident :=
  {| inc_oid := 7; inc_id := "incident_900_k3x9q"; inc_type := "downtime";
     severity := "high"; startTime := 900; endTime := None; duration := None;
     resolved := false; description := "Application is down: Unknown error" |}.

(** A target that has failed its four checks and has an open outage. *)
Definition downApp : App :=
  set_healthStatus "down"
    (set_monitoring
       {| uptimePercentage := 0;
          responseTime := {| current := 80; average := 80; p95 := 0 |};
          checksPerformed := 4;
          consecutiveFailures := 4;
          lastFailure := Some 900;
          incidents := [outage] |}
       deployedApp).

(** The same record under another [appId]. *)
Definition withId (id : string) (a : App) : App :=
  {| appId := id; userId := userId a; appName := appName a;
     deploymentStatus := deploymentStatus a; healthStatus := healthStatus a;
     monitoringEnabled := monitoringEnabled a; lastCheck := lastCheck a;
     deployment := deployment a; monitoring := monitoring a;
     configuration := configuration a; isActive := isActive a |}.

(** A target whose restart policy asks for five failures, after two checks
    that both failed. *)
Definition patientApp : App :=
  set_configuration (set_maxRestartAttempts 5 (configuration deployedApp))
    (set_healthStatus "down"
       (set_monitoring
          {| uptimePercentage := 0;
             responseTime := {| current := 80; average := 80; p95 := 0 |};
             checksPerformed := 2;
             consecutiveFailures := 2;
             lastFailure := Some 900;
             incidents := [] |}
          deployedApp)).

(** A world in which nothing fails and no event has happened yet. *)
Definition calm (now : Z) : World :=
  {| io := true; clock := now; rejects := []; entropy := []; trace := [] |}.

(** A network that answers every request the same way. *)
Definition always (o : NetOutcome) : Network := fun _ _ => o.

(** Every request gets this HTTP status after [ms] milliseconds. *)
Definition answers (ms status : Z) : Network :=
  always {| elapsed := ms; netResult := HttpResponse status |}.

(** Every request fails in transport with this error code. *)
Definition fails (ms : Z) (code msg : string) : Network :=
  always {| elapsed := ms; netResult := NetFailure (Some code) msg |}.

(** A server that never answers: axios gives up once the [timeout] it was
    called with has passed and rejects with its own code for that,
    ECONNABORTED. *)
Definition timedOut : Network :=
  fun _ timeoutMs =>
    {| elapsed := timeoutMs;
       netResult := NetFailure (Some "ECONNABORTED")
                      ("timeout of " ++ showZ timeoutMs ++ "ms exceeded") |}.

(** * The rest of the engine

    The tick of [performMonitoringChecks] and the manual check, the service
    object with its cron tasks, the statistics, the [uptimeStatus] virtual,
    the [toJSON] transform and the configuration route, and, from the
    [User] document, the login lock and the usage limits. *)

(** Is this event an alert handed to the notification service? *)
Definition isAlert (e : Event) : bool :=
  match e with
  | AlertSent _ _ _ => true
  | _ => false
  end.

(** The number of alerts a trace records. *)
Definition alerts (w : World) : nat := List.length (filter isAlert (trace w)).

(** The trace records [n] alerts. *)
Definition alertsAre (n : nat) (s : State) : Prop := alerts (world s) = n.

(** The [uptimeStatus] virtual. *)
Definition uptimeStatus (a : App) : string :=
  let uptime := uptimePercentage (monitoring a) in
  if Qle_bool (999 # 10) uptime then "excellent"
  else if Qle_bool 99 uptime then "good"
  else if Qle_bool 95 uptime then "fair"
  else "poor".

(** The colour table of the e-mail and Slack renderings: [severityColors[severity]]. *)
Definition severityColors (sev : string) : option string :=
  if sev =? "critical" then Some "#dc2626"
  else if sev =? "high" then Some "#ea580c"
  else if sev =? "medium" then Some "#d97706"
  else if sev =? "low" then Some "#65a30d"
  else None.

(** Successive calls of [updateHealthStatus] on one document, each on the
    state the previous one left, whether its [save()] resolved or not. *)
Definition observeAll (obs : list (string * option Z)) (s : State) : State :=
  fold_left (fun s o => exec (updateHealthStatus (fst o) (snd o)) s) obs s.

(** The query of [findAppsForMonitoring], asked at time [now], as a
    predicate on a stored document ([lastCheck] is always present here). *)
Definition dueForMonitoring (now : Z) (a : App) : bool :=
  monitoringEnabled a && isActive a && (deploymentStatus a =? "deployed")
  && (lastCheck a <? now - 30000)%Z.

(** Both copies of the document were checked at [t] or later, and it is [t]
    or later. *)
Definition checkedSince (t : Z) (s : State) : Prop :=
  t <= lastCheck (doc s) /\ t <= lastCheck (stored s) /\ t <= clock (world s).


(** ** The tick of [performMonitoringChecks] *)

Definition batchSize : nat := 10.

(** [apps.slice(i, j)] *)
Definition slice {A} (i j : nat) (l : list A) : list A := firstn (j - i) (skipn i l).

(** The [for (let i = 0; i < apps.length; i += batchSize)] loop from index
    [i] on, as the list of its batches; [fuel] bounds the iterations. *)
Fixpoint batchesFrom {A} (fuel i : nat) (apps : list A) : list (list A) :=
  match fuel with
  | O => []
  | S fuel' =>
      if (i <? List.length apps)%nat
      then slice i (i + batchSize) apps :: batchesFrom fuel' (i + batchSize) apps
      else []
  end.

(** The index grows by ten each time round: [apps.length] iterations are
    enough. *)
Definition batches {A} (apps : list A) : list (list A) :=
  batchesFrom (List.length apps) 0 apps.

(** [Promise.allSettled(batch.map(app => this.checkAppHealth(app)))]: every
    cycle of the batch runs to its end and what it threw is dropped. The
    cycles of a batch touch one document each; they are run here one after
    the other. The result is what each left in the database. *)
Fixpoint checkBatch (net : Network) (users : string -> Lookup) (batch : list App)
    (w : World) : list App * World :=
  match batch with
  | [] => ([], w)
  | app :: rest =>
      let s := checkCycle net (users (userId app)) app w in
      let '(rest', w') := checkBatch net users rest (world s) in
      (stored s :: rest', w')
  end.

Fixpoint checkBatches (net : Network) (users : string -> Lookup)
    (bs : list (list App)) (w : World) : list App * World :=
  match bs with
  | [] => ([], w)
  | batch :: rest =>
      let '(done, w1) := checkBatch net users batch w in
      let '(rest', w2) := checkBatches net users rest w1 in
      ((done ++ rest')%list, w2)
  end.

(** [performMonitoringChecks] over the documents of the database: the
    documents it checked, as saved, in the order of the query. *)
Definition performMonitoringChecks (findRejects : bool) (net : Network)
    (users : string -> Lookup) (db : list App) (w : World) : list App * World :=
  if findRejects then
    ([], logTo (LogError "Error performing monitoring checks") w)
  else
    let apps := filter (dueForMonitoring (clock w)) db in
    if (List.length apps =? 0)%nat then ([], w)
    else
      checkBatches net users (batches apps)
        (logTo (LogInfo ("Performing monitoring checks for "
                         ++ showZ (Z.of_nat (List.length apps)) ++ " apps")) w).

(** ** The service and its cron tasks *)

(** A task made by [cron.schedule]: its expression, and whether it is
    started. *)
Record Task := {
  cronExpression : string;
  started : bool
}.

(** The service object. [tasks] holds every task made so far, oldest first;
    [monitoringJobs] is the [Map] from job name to task, as indices into
    [tasks], in insertion order. *)
Record Service := {
  isRunning : bool;
  monitoringJobs : list (string * nat);
  tasks : list Task;
  serviceLog : list Event
}.

(** [new MonitoringService(io)] *)
Definition newService : Service :=
  {| isRunning := false; monitoringJobs := []; tasks := []; serviceLog := [] |}.

Definition logService (e : Event) (svc : Service) : Service :=
  {| isRunning := isRunning svc; monitoringJobs := monitoringJobs svc;
     tasks := tasks svc; serviceLog := e :: serviceLog svc |}.

Definition set_isRunning (v : bool) (svc : Service) : Service :=
  {| isRunning := v; monitoringJobs := monitoringJobs svc;
     tasks := tasks svc; serviceLog := serviceLog svc |}.

(** [Map.prototype.set]: the value of an existing key is replaced in place,
    a new key goes last. *)
Fixpoint mapSet (k : string) (v : nat) (m : list (string * nat)) : list (string * nat) :=
  match m with
  | [] => [(k, v)]
  | (k', v') :: rest => if k' =? k then (k', v) :: rest else (k', v') :: mapSet k v rest
  end.

(** [task.start()] and [task.stop()] *)
Fixpoint setStarted (v : bool) (idx : nat) (ts : list Task) : list Task :=
  match ts, idx with
  | [], _ => []
  | t :: rest, O => {| cronExpression := cronExpression t; started := v |} :: rest
  | t :: rest, S idx' => t :: setStarted v idx' rest
  end.

(** [const job = cron.schedule(expr, ..., {scheduled: false});
    this.monitoringJobs.set(name, job); job.start()] *)
Definition scheduleJob (name expr : string) (svc : Service) : Service :=
  let idx := List.length (tasks svc) in
  {| isRunning := isRunning svc;
     monitoringJobs := mapSet name idx (monitoringJobs svc);
     tasks := setStarted true idx
                (tasks svc ++ [{| cronExpression := expr; started := false |}]);
     serviceLog := serviceLog svc |}.

Definition scheduleMonitoring (svc : Service) : Service :=
  scheduleJob "aggregation" "*/5 * * * *"
    (scheduleJob "main-monitoring" "*/30 * * * * *" svc).

Definition scheduleCleanup (svc : Service) : Service :=
  scheduleJob "cleanup" "0 2 * * *" svc.

Definition start (svc : Service) : Service :=
  if isRunning svc then
    logService (LogWarn "Monitoring service is already running") svc
  else
    logService (LogInfo "Monitoring service started successfully")
      (scheduleCleanup
         (scheduleMonitoring
            (set_isRunning true
               (logService (LogInfo "Starting monitoring service...") svc)))).

Definition stop (svc : Service) : Service :=
  if negb (isRunning svc) then
    logService (LogWarn "Monitoring service is not running") svc
  else
    let svc1 := logService (LogInfo "Stopping monitoring service...") svc in
    logService (LogInfo "Monitoring service stopped")
      {| isRunning := false;
         monitoringJobs := [];
         tasks := fold_left (fun ts job => setStarted false (snd job) ts)
                    (monitoringJobs svc1) (tasks svc1);
         serviceLog := serviceLog svc1 |}.

(** A call made on the service. *)
Inductive Call := CallStart | CallStop.

Definition call (svc : Service) (c : Call) : Service :=
  match c with
  | CallStart => start svc
  | CallStop => stop svc
  end.

(** The tasks that are started, oldest first. *)
Definition runningTasks (svc : Service) : list Task := filter started (tasks svc).

(** Every task of the list is stopped. *)
Definition allStopped (ts : list Task) : Prop := Forall (fun t => started t = false) ts.

(** What holds of the service between calls. *)
Definition settled (svc : Service) : Prop :=
  if isRunning svc then
    exists old,
      allStopped old
      /\ tasks svc
         = (old ++ [ {| cronExpression := "*/30 * * * * *"; started := true |};
                     {| cronExpression := "*/5 * * * *"; started := true |};
                     {| cronExpression := "0 2 * * *"; started := true |} ])%list
      /\ monitoringJobs svc
         = [ ("main-monitoring", List.length old);
             ("aggregation", S (List.length old));
             ("cleanup", S (S (List.length old))) ]
  else
    monitoringJobs svc = [] /\ allStopped (tasks svc).

(** ** The [User] document: login lock and usage limits *)

Record UserDoc := {
  subscriptionTier : string;
  appsDeployed : Z;                (* [usage.appsDeployed] *)
  serverlessFunctions : Z;         (* [usage.serverlessFunctions] *)
  loginAttempts : Z;               (* 0 when unset, as the schema default reads *)
  lockUntil : option Z
}.

Definition set_login (attempts : Z) (lock : option Z) (u : UserDoc) : UserDoc :=
  {| subscriptionTier := subscriptionTier u; appsDeployed := appsDeployed u;
     serverlessFunctions := serverlessFunctions u;
     loginAttempts := attempts; lockUntil := lock |}.

Definition set_subscriptionTier (v : string) (u : UserDoc) : UserDoc :=
  {| subscriptionTier := v; appsDeployed := appsDeployed u;
     serverlessFunctions := serverlessFunctions u;
     loginAttempts := loginAttempts u; lockUntil := lockUntil u |}.

(** The [isLocked] virtual, read at time [now]. *)
Definition isLocked (now : Z) (u : UserDoc) : bool :=
  match lockUntil u with
  | Some t => (t >? now)%Z
  | None => false
  end.

(** [incLoginAttempts], as the document its [updateOne] leaves. *)
Definition incLoginAttempts (now : Z) (u : UserDoc) : UserDoc :=
  let expired :=
    match lockUntil u with
    | Some t => (t <? now)%Z
    | None => false
    end in
  if expired then set_login 1 None u
  else if (loginAttempts u + 1 >=? 5)%Z && negb (isLocked now u)
       then set_login (loginAttempts u + 1) (Some (now + 2 * 60 * 60 * 1000)) u
       else set_login (loginAttempts u + 1) (lockUntil u) u.

(** [resetLoginAttempts]: both fields unset. *)
Definition resetLoginAttempts (u : UserDoc) : UserDoc := set_login 0 None u.

(** A value looked up in a table of limits. *)
Inductive Limit := Finite (n : Z) | Infinity | Undefined.

(** [usage < limit] *)
Definition below (usage : Z) (l : Limit) : bool :=
  match l with
  | Finite n => (usage <? n)%Z
  | Infinity => true
  | Undefined => false
  end.

Definition appLimit (tier : string) : Limit :=
  if tier =? "free" then Finite 1
  else if tier =? "pro" then Finite 5
  else if tier =? "enterprise" then Infinity
  else Undefined.

Definition functionLimit (tier : string) : Limit :=
  if tier =? "free" then Finite 3
  else if tier =? "pro" then Finite 25
  else if tier =? "enterprise" then Infinity
  else Undefined.

Definition canDeployApp (u : UserDoc) : bool :=
  below (appsDeployed u) (appLimit (subscriptionTier u)).

Definition canCreateFunction (u : UserDoc) : bool :=
  below (serverlessFunctions u) (functionLimit (subscriptionTier u)).

(** The decision of the [checkUsageLimits(resource)] middleware: does the
    request go on? *)
Definition checkUsageLimits (resource : string) (u : UserDoc) : bool :=
  if resource =? "apps" then canDeployApp u
  else if resource =? "functions" then canCreateFunction u
  else true.

(** The answers of the login route that depend on the lock. *)
Inductive LoginAnswer := LoggedIn | InvalidCredentials | AccountLocked.

(** The login route once the user is found: the lock is checked first, a
    wrong password counts an attempt, a right one resets the count. *)
Definition login (now : Z) (passwordMatches : bool) (u : UserDoc)
    : LoginAnswer * UserDoc :=
  if isLocked now u then (AccountLocked, u)
  else if negb passwordMatches then (InvalidCredentials, incLoginAttempts now u)
  else (LoggedIn, if (loginAttempts u >? 0)%Z then resetLoginAttempts u else u).

(** Failed logins at the given times, one after the other. *)
Definition failedLogins (times : list Z) (u : UserDoc) : UserDoc :=
  fold_left (fun u t => snd (login t false u)) times u.

(** ** Statistics, configuration and serialisation *)

(** [DeployedApp.countDocuments(query)] *)
Definition countDocuments (query : App -> bool) (db : list App) : Z :=
  Z.of_nat (List.length (filter query db)).

Definition deployedWith (status : option string) (a : App) : bool :=
  isActive a && (deploymentStatus a =? "deployed")
  && match status with
     | Some st => healthStatus a =? st
     | None => true
     end.

Record MonitoringStats := {
  totalApps : Z;
  upApps : Z;
  downApps : Z;
  warningApps : Z;
  statsUptimePercentage : Q;
  averageResponseTime : Q
}.

(** The [$match]/[$group] pipeline: the mean of the positive
    [responseTime.current] of the active, deployed documents, if any. *)
Definition avgResponseTime (db : list App) : option Q :=
  let matched :=
    filter (fun a => deployedWith None a
                     && (current (responseTime (monitoring a)) >? 0)%Z) db in
  let sum :=
    fold_right (fun a acc => current (responseTime (monitoring a)) + acc) 0 matched in
  match matched with
  | [] => None
  | _ => Some (inject_Z sum / inject_Z (Z.of_nat (List.length matched)))%Q
  end.

(** The database as each of the five queries of [getMonitoringStats] finds
    it. The queries are awaited one after the other, outside any
    transaction: a check cycle, a deployment or a removal may write between
    two of them. *)
Record StatsReads := {
  atTotal : list App;
  atUp : list App;
  atDown : list App;
  atWarning : list App;
  atAverage : list App
}.

(** Nothing is written while the statistics are read. *)
Definition steady (db : list App) : StatsReads :=
  {| atTotal := db; atUp := db; atDown := db; atWarning := db; atAverage := db |}.

(** [getMonitoringStats]; each query is taken to answer. *)
Definition getMonitoringStats (reads : StatsReads) : MonitoringStats :=
  let totalApps := countDocuments (deployedWith None) (atTotal reads) in
  let upApps := countDocuments (deployedWith (Some "up")) (atUp reads) in
  let downApps := countDocuments (deployedWith (Some "down")) (atDown reads) in
  let warningApps := countDocuments (deployedWith (Some "warning")) (atWarning reads) in
  let avg := avgResponseTime (atAverage reads) in
  {| totalApps := totalApps;
     upApps := upApps;
     downApps := downApps;
     warningApps := warningApps;
     statsUptimePercentage :=
       if (totalApps >? 0)%Z then (inject_Z upApps / inject_Z totalApps * 100)%Q
       else 100%Q;
     averageResponseTime :=
       match avg with
       | Some q => if Qeq_bool q 0 then 0%Q else q
       | None => 0%Q
       end |}.

(** An environment variable of a deployment. *)
Record EnvVar := {
  key : string;
  value : string;
  encrypted : bool
}.

(** The [toJSON] transform of the environment variables. *)
Definition maskEnvironment (envs : list EnvVar) : list EnvVar :=
  map (fun env => {| key := key env;
                     encrypted := encrypted env;
                     value := if encrypted env then "[ENCRYPTED]" else value env |})
      envs.

(** The fields of the body of [PUT /apps/:appId/config] that reach the
    document's [monitoringEnabled] and [configuration]; an absent field is
    [None]. Numbers are integers. The [alerts] array of the body goes to
    [monitoring.alerts], which the check cycle never reads and the data
    model above leaves out. *)
Record ConfigBody := {
  bodyMonitoringEnabled : option bool;
  bodyHealthCheckInterval : option Z;
  bodyHealthCheckPath : option string;
  bodyTimeout : option Z;
  bodyAutoRestart : option bool
}.

Definition set_monitoringEnabled (v : bool) (a : App) : App :=
  {| appId := appId a; userId := userId a; appName := appName a;
     deploymentStatus := deploymentStatus a; healthStatus := healthStatus a;
     monitoringEnabled := v; lastCheck := lastCheck a;
     deployment := deployment a; monitoring := monitoring a;
     configuration := configuration a; isActive := isActive a |}.

(** [if (x) ...] on a number that may be absent. *)
Definition truthyNumber (o : option Z) : option Z :=
  match o with
  | Some n => if (n =? 0)%Z then None else Some n
  | None => None
  end.

(** The assignments of the configuration route, before [app.save()]. *)
Definition applyConfig (body : ConfigBody) (a : App) : App :=
  let a1 :=
    match bodyMonitoringEnabled body with
    | Some b => set_monitoringEnabled b a
    | None => a
    end in
  let c := configuration a1 in
  let interval :=
    match truthyNumber (bodyHealthCheckInterval body) with
    | Some n => Z.max 10 (Z.min 3600 n)
    | None => healthCheckInterval c
    end in
  let path :=
    if truthy (bodyHealthCheckPath body)
    then orDefault (bodyHealthCheckPath body) ""
    else healthCheckPath c in
  let tmo :=
    match truthyNumber (bodyTimeout body) with
    | Some n => Z.max 5 (Z.min 300 n)
    | None => timeout c
    end in
  let restart :=
    match bodyAutoRestart body with
    | Some b => b
    | None => autoRestart c
    end in
  set_configuration
    {| autoRestart := restart; maxRestartAttempts := maxRestartAttempts c;
       healthCheckPath := path; healthCheckInterval := interval; timeout := tmo |}
    a1.

(** ** The manual check *)

(** [DeployedApp.findOne(query)]: the first document the query selects,
    with the documents before and after it. *)
Fixpoint findOne (query : App -> bool) (db : list App)
    : option (list App * App * list App) :=
  match db with
  | [] => None
  | a :: rest =>
      if query a then Some ([], a, rest)
      else match findOne query rest with
           | Some (before, found, after) => Some (a :: before, found, after)
           | None => None
           end
  end.

Definition appNotFound : JsError :=
  {| errCode := None; errResponseStatus := None; errMessage := "App not found" |}.

(** [performManualCheck(appId)]: the document it returns or the error it
    rethrows, and the database after it. The query itself is taken to
    answer. *)
Definition performManualCheck (net : Network) (users : string -> Lookup)
    (id : string) (db : list App) (w : World) : Res App * list App * World :=
  let failed := LogError ("Manual health check failed for app " ++ id) in
  match findOne (fun a => (appId a =? id) && isActive a) db with
  | None => (Throw appNotFound, db, logTo failed w)
  | Some (before, app, after) =>
      match checkAppHealth net (users (userId app)) (load app w) with
      | (Ok _, s) => (Ok (doc s), (before ++ stored s :: after)%list, world s)
      | (Throw e, s) =>
          (Throw e, (before ++ stored s :: after)%list, logTo failed (world s))
      end
  end.

(** Both copies of the document are [d]. *)
Definition bothAre (d : App) (s : State) : Prop := doc s = d /\ stored s = d.

(** * Properties *)

(** ** The alert decision *)

Lemma slowerThan_spec (bound : Z) (rt : option Z) :
  0 <= bound ->
  (slowerThan bound rt = true <-> exists t, rt = Some t /\ t > bound).
Proof.
  intros Hb. unfold slowerThan. destruct rt as [t|].
  - rewrite andb_true_iff, negb_true_iff, Z.eqb_neq, Z.gtb_lt. split.
    + intros [_ H]. exists t. split; [reflexivity | lia].
    + intros [t' [E H]]. injection E as <-. lia.
  - split; [discriminate | intros [t [E _]]; discriminate].
Qed.

(** The cascade of [if]s as one boolean. *)
Lemma shouldSendAlert_bool (app : App) (status : string) (rt : option Z) :
  shouldSendAlert app status rt
  = monitoringEnabled app
    && (((status =? "down") && (failures app >=? 3)%Z)
        || (slowerThan 5000 rt && (failures app >=? 2)%Z)
        || ((status =? "warning") && (failures app >=? 5)%Z)).
Proof.
  unfold shouldSendAlert.
  destruct (monitoringEnabled app), (status =? "down"), (failures app >=? 3)%Z,
    (slowerThan 5000 rt), (failures app >=? 2)%Z, (status =? "warning"),
    (failures app >=? 5)%Z; reflexivity.
Qed.

Lemma shouldSendAlert_true_iff (app : App) (status : string) (rt : option Z) :
  shouldSendAlert app status rt = true <->
  monitoringEnabled app = true /\
  ((status = "down" /\ failures app >= 3)
   \/ (exists t, rt = Some t /\ t > 5000 /\ failures app >= 2)
   \/ (status = "warning" /\ failures app >= 5)).
Proof.
  rewrite shouldSendAlert_bool.
  rewrite andb_true_iff, !orb_true_iff, !andb_true_iff, !String.eqb_eq, !Z.geb_le.
  rewrite (slowerThan_spec 5000 rt) by lia.
  split.
  - intros [He [[[Hd Hf]|[[t [E Ht]] Hf]]|[Hw Hf]]]; split; try exact He.
    + left. split; [exact Hd | lia].
    + right; left. exists t. repeat split; [exact E | exact Ht | lia].
    + right; right. split; [exact Hw | lia].
  - intros [He [[Hd Hf]|[[t [E [Ht Hf]]]|[Hw Hf]]]]; split; try exact He.
    + left; left. split; [exact Hd | lia].
    + left; right. split; [exists t; split; [exact E | exact Ht] | lia].
    + right. split; [exact Hw | lia].
Qed.

(** C2, as stated, fails in its last clause: a 'down' observation at two
    consecutive failures does alert when it took more than 5000 ms. *)
Lemma shouldSendAlert_slow_down_at_two :
  let a := set_failures 2 deployedApp in
  monitoringEnabled a = true
  /\ failures a = 2
  /\ shouldSendAlert a "down" (Some 6000) = true.
Proof. vm_compute. repeat split; reflexivity. Qed.

(** C2, amended. [shouldSendAlert] returns false when [monitoringEnabled]
    is false; otherwise it returns true exactly when the status is 'down'
    and [consecutiveFailures] >= 3, or the response time is above 5000 and
    [consecutiveFailures] >= 2, or the status is 'warning' and
    [consecutiveFailures] >= 5. In particular, for a 'down' observation it
    returns true at three consecutive failures; at two it returns false
    when the response time is absent or at most 5000, and true when it is
    above 5000. *)
Theorem shouldSendAlert_decision :
  forall (app : App) (status : string) (rt : option Z),
    (monitoringEnabled app = false -> shouldSendAlert app status rt = false)
    /\ (monitoringEnabled app = true ->
        (shouldSendAlert app status rt = true
         <-> (status = "down" /\ failures app >= 3)
             \/ (exists t, rt = Some t /\ t > 5000 /\ failures app >= 2)
             \/ (status = "warning" /\ failures app >= 5)))
    /\ (monitoringEnabled app = true -> failures app = 3 ->
        shouldSendAlert app "down" rt = true)
    /\ (monitoringEnabled app = true -> failures app = 2 ->
        (forall t, rt = Some t -> t <= 5000) ->
        shouldSendAlert app "down" rt = false)
    /\ (monitoringEnabled app = true -> failures app = 2 ->
        (exists t, rt = Some t /\ t > 5000) ->
        shouldSendAlert app "down" rt = true).
Proof.
  intros app status rt.
  split; [|split; [|split; [|split]]].
  - intros H. unfold shouldSendAlert. rewrite H. reflexivity.
  - intros H. rewrite shouldSendAlert_true_iff. tauto.
  - intros He Hf. apply shouldSendAlert_true_iff. split; [exact He|].
    left. split; [reflexivity | lia].
  - intros He Hf Hrt. destruct (shouldSendAlert app "down" rt) eqn:E; [|reflexivity].
    apply shouldSendAlert_true_iff in E.
    destruct E as [_ [[_ H]|[[t [Et [Ht _]]]|[H _]]]]; try lia; try discriminate.
    specialize (Hrt t Et). lia.
  - intros He Hf [t [Et Ht]]. apply shouldSendAlert_true_iff. split; [exact He|].
    right; left. exists t. repeat split; [exact Et | exact Ht | lia].
Qed.

(** ** Invariants of computations *)

Section Preservation.

Variable I : State -> Prop.

Lemma preserves_ret {A} (a : A) : preserves I (ret a).
Proof. intros s H. exact H. Qed.

Lemma preserves_throw {A} (e : JsError) : preserves I (@throw A e).
Proof. intros s H. exact H. Qed.

Lemma preserves_bind {A B} (m : M A) (k : A -> M B) :
  preserves I m -> (forall a, preserves I (k a)) -> preserves I (bind m k).
Proof.
  intros Hm Hk s H. specialize (Hm s H).
  unfold exec, bind in *. destruct (m s) as [[a|e] s']; cbn in *.
  - apply Hk. exact Hm.
  - exact Hm.
Qed.

Lemma preserves_tryCatch {A} (m : M A) (h : JsError -> M A) :
  preserves I m -> (forall e, preserves I (h e)) -> preserves I (tryCatch m h).
Proof.
  intros Hm Hh s H. specialize (Hm s H).
  unfold exec, tryCatch in *. destruct (m s) as [[a|e] s']; cbn in *.
  - exact Hm.
  - apply Hh. exact Hm.
Qed.

Lemma preserves_getDoc : preserves I getDoc.
Proof. intros s H. exact H. Qed.

Lemma preserves_getWorld : preserves I getWorld.
Proof. intros s H. exact H. Qed.

Lemma preserves_Date_now : preserves I Date_now.
Proof. intros s H. exact H. Qed.

(** Invariants that speak of the documents only. *)
Hypothesis I_world : forall s w, I s -> I (set_world w s).
Hypothesis I_save :
  forall s w, I s -> I {| doc := doc s; stored := doc s; world := w |}.

Lemma preserves_modifyWorld (f : World -> World) : preserves I (modifyWorld f).
Proof. intros s H. apply I_world. exact H. Qed.

Lemma preserves_emit (e : Event) : preserves I (emit e).
Proof. apply preserves_modifyWorld. Qed.

Lemma preserves_elapse (d : Z) : preserves I (elapse d).
Proof. apply preserves_modifyWorld. Qed.

Lemma preserves_fresh : preserves I fresh.
Proof. intros s H. apply I_world. exact H. Qed.

Lemma preserves_save : preserves I save.
Proof.
  intros s H. unfold exec, save.
  destruct (rejects (world s)) as [|[|] r]; cbn;
    first [apply I_save; exact H | apply I_world; exact H].
Qed.

Lemma preserves_User_findOne (l : Lookup) : preserves I (User_findOne l).
Proof. intros s H. destruct l; exact H. Qed.

Lemma preserves_axios_get net u t v : preserves I (axios_get net u t v).
Proof.
  unfold axios_get. apply preserves_bind; [apply preserves_elapse|].
  intros _. destruct (netResult _) as [st|c msg].
  - destruct (v st); [apply preserves_ret | apply preserves_throw].
  - apply preserves_throw.
Qed.

End Preservation.

Lemma docInv_world (P : App -> Prop) s w : docInv P s -> docInv P (set_world w s).
Proof. intros H. exact H. Qed.

Lemma docInv_save (P : App -> Prop) s w :
  docInv P s -> docInv P {| doc := doc s; stored := doc s; world := w |}.
Proof. intros [H _]. split; exact H. Qed.

Lemma docInv_modifyDoc (P : App -> Prop) (f : App -> App) :
  (forall a, P a -> P (f a)) -> preserves (docInv P) (modifyDoc f).
Proof. intros Hf s [H1 H2]. split; [apply Hf; exact H1 | exact H2]. Qed.

(** One step of a preservation proof for an invariant of the documents. *)
Ltac doc_step P :=
  first
    [ apply preserves_bind; [|intro]
    | apply preserves_tryCatch; [|intro]
    | apply preserves_ret
    | apply preserves_throw
    | apply preserves_getDoc
    | apply preserves_getWorld
    | apply preserves_Date_now
    | apply (preserves_emit _ (docInv_world P))
    | apply (preserves_elapse _ (docInv_world P))
    | apply (preserves_fresh _ (docInv_world P))
    | apply (preserves_save _ (docInv_world P) (docInv_save P))
    | apply preserves_User_findOne
    | apply (preserves_axios_get _ (docInv_world P))
    | match goal with
      | |- preserves _ (if ?b then _ else _) => destruct b
      | |- preserves _ (match ?x with _ => _ end) => destruct x
      end ].

(** ** The alert path of a check cycle *)

Lemma shouldSendAlert_failures (app : App) (status : string) (rt : option Z) :
  shouldSendAlert app status rt = true -> failures app >= 2.
Proof.
  intros H. apply shouldSendAlert_true_iff in H.
  destruct H as [_ [[_ H]|[[t [_ [_ H]]]|[_ H]]]]; lia.
Qed.

(** [checkAlertConditions] returns normally and leaves both documents as
    they were: all it does is log and ask for an alert. *)
Lemma checkAlertConditions_effect lookup status rt error s :
  exists evs,
    checkAlertConditions lookup status rt error s = (Ok tt, logged evs s)
    /\ filter isAttempt evs = [].
Proof.
  destruct s as [d st [i c r en tr]].
  unfold checkAlertConditions, tryCatch, bind, logged.
  destruct lookup; cbn.
  - destruct (shouldSendAlert d status rt) eqn:E.
    + pose proof (shouldSendAlert_failures _ _ _ E) as Hf.
      unfold sendAlert, openIncidentIfNew, bind; cbn.
      replace (failures d =? 1)%Z with false by (symmetry; apply Z.eqb_neq; lia).
      cbn. eexists [_]. split; reflexivity.
    + cbn. exists []. split; reflexivity.
  - exists []. split; reflexivity.
  - eexists [_]. split; reflexivity.
Qed.

(** ** [updateHealthStatus] as one assignment *)

Lemma updateHealthStatus_observed status rt s :
  updateHealthStatus status rt s
  = save (set_doc (observed status rt (clock (world s)) (doc s)) s).
Proof.
  unfold updateHealthStatus, observed, bind, modifyMonitoring, modifyDoc,
    Date_now, ret.
  destruct rt; destruct (status =? "up");
    try destruct ((status =? "down") || (status =? "warning")); reflexivity.
Qed.

Lemma save_doc s : doc (exec save s) = doc s.
Proof.
  unfold exec, save. destruct (rejects (world s)) as [|[|] r]; reflexivity.
Qed.

Lemma save_stored s :
  stored (exec save s) = if hd false (rejects (world s)) then stored s else doc s.
Proof.
  unfold exec, save. destruct (rejects (world s)) as [|[|] r]; reflexivity.
Qed.

Lemma save_world s :
  world (exec save s) = set_rejects (tl (rejects (world s))) (world s).
Proof.
  unfold exec, save. destruct (rejects (world s)) as [|[|] r]; reflexivity.
Qed.

Lemma save_result s :
  result save s = if hd false (rejects (world s)) then Throw saveError else Ok tt.
Proof.
  unfold result, save. destruct (rejects (world s)) as [|[|] r]; reflexivity.
Qed.

Lemma updateHealthStatus_doc status rt s :
  doc (exec (updateHealthStatus status rt) s)
  = observed status rt (clock (world s)) (doc s).
Proof.
  unfold exec. rewrite updateHealthStatus_observed.
  apply (save_doc (set_doc _ s)).
Qed.

Lemma observed_checks status rt now a :
  checks (observed status rt now a) = checks a + 1.
Proof.
  unfold observed, checks. destruct rt; destruct (status =? "up");
    try destruct ((status =? "down") || (status =? "warning")); reflexivity.
Qed.

Lemma observed_failures status rt now a :
  failures (observed status rt now a)
  = if status =? "up" then 0
    else if (status =? "down") || (status =? "warning") then failures a + 1
    else failures a.
Proof.
  unfold observed, failures. destruct rt; destruct (status =? "up");
    try destruct ((status =? "down") || (status =? "warning")); reflexivity.
Qed.

Lemma observed_lastFailure status rt now a :
  lastFailure (monitoring (observed status rt now a))
  = if status =? "up" then lastFailure (monitoring a)
    else if (status =? "down") || (status =? "warning") then Some now
    else lastFailure (monitoring a).
Proof.
  unfold observed. destruct rt; destruct (status =? "up");
    try destruct ((status =? "down") || (status =? "warning")); reflexivity.
Qed.

Lemma observed_uptime status rt now a :
  uptime (observed status rt now a)
  = (inject_Z (checks (observed status rt now a) - failures (observed status rt now a))
     / inject_Z (Z.max (checks (observed status rt now a)) 1) * 100)%Q.
Proof.
  unfold observed, uptime, checks, failures. destruct rt; destruct (status =? "up");
    try destruct ((status =? "down") || (status =? "warning")); reflexivity.
Qed.

Lemma observed_countersOk status rt now a :
  countersOk a -> countersOk (observed status rt now a).
Proof.
  unfold countersOk. rewrite observed_checks, observed_failures.
  destruct (status =? "up");
    try destruct ((status =? "down") || (status =? "warning")); lia.
Qed.

(** A percentage of [n] checks of which [k] count. *)
Lemma percentage_bounds (k n : Z) :
  0 <= k <= n -> 0 < n ->
  (0 <= inject_Z k / inject_Z n * 100 <= 100)%Q.
Proof.
  intros Hk Hn. destruct n as [|p|p]; try lia.
  unfold Qle, Qdiv, Qmult, Qinv, inject_Z; cbn. split; nia.
Qed.

(** ** What a check cycle and an aggregation run keep *)

Section CycleInvariant.

(** A property of records that the assignments of the engine keep. *)
Variable P : App -> Prop.
Hypothesis P_healthStatus : forall v a, P a -> P (set_healthStatus v a).
Hypothesis P_lastCheck : forall v a, P a -> P (set_lastCheck v a).
Hypothesis P_observed : forall status rt now a, P a -> P (observed status rt now a).
Hypothesis P_reset :
  forall a, P a -> P (set_monitoring (set_consecutiveFailures 0 (monitoring a)) a).
Hypothesis P_uptime :
  forall v a, P a -> P (set_monitoring (set_uptimePercentage v (monitoring a)) a).
Hypothesis P_pull : forall horizon a, P a -> P (pullStale horizon a).

Lemma updateHealthStatus_preserves status rt :
  preserves (docInv P) (updateHealthStatus status rt).
Proof.
  intros s [Hd Hs]. unfold exec. rewrite updateHealthStatus_observed.
  apply (preserves_save _ (docInv_world P) (docInv_save P)).
  split; [apply P_observed; exact Hd | exact Hs].
Qed.

Lemma checkAlertConditions_preserves lookup status rt error :
  preserves (docInv P) (checkAlertConditions lookup status rt error).
Proof.
  intros s H. unfold exec.
  destruct (checkAlertConditions_effect lookup status rt error s) as [evs [E _]].
  rewrite E. exact H.
Qed.

Lemma emitHealthUpdate_preserves : preserves (docInv P) emitHealthUpdate.
Proof. unfold emitHealthUpdate. repeat doc_step P. Qed.

Lemma simulateRestart_preserves : preserves (docInv P) simulateRestart.
Proof.
  unfold simulateRestart, modifyMonitoring.
  repeat first [ doc_step P | apply docInv_modifyDoc; intros ? ? ];
    auto.
Qed.

Lemma attemptAutoRestart_preserves : preserves (docInv P) attemptAutoRestart.
Proof.
  unfold attemptAutoRestart.
  repeat first
    [ apply emitHealthUpdate_preserves
    | apply simulateRestart_preserves
    | doc_step P
    | apply docInv_modifyDoc; intros ? ? ];
    auto.
Qed.

Lemma probe_preserves net startTime : preserves (docInv P) (probe net startTime).
Proof.
  unfold probe.
  repeat first [ progress cbv zeta | doc_step P ].
Qed.

Lemma checkAppHealth_preserves net lookup :
  preserves (docInv P) (checkAppHealth net lookup).
Proof.
  unfold checkAppHealth.
  repeat first
    [ progress cbv zeta
    | apply probe_preserves
    | apply updateHealthStatus_preserves
    | apply checkAlertConditions_preserves
    | apply attemptAutoRestart_preserves
    | apply emitHealthUpdate_preserves
    | doc_step P ].
Qed.

Lemma aggregateOne_preserves : preserves (docInv P) aggregateOne.
Proof.
  unfold aggregateOne, modifyMonitoring.
  repeat first
    [ progress cbv zeta | doc_step P | apply docInv_modifyDoc; intros ? ? ];
    auto.
Qed.

(** Every record the engine makes of a record with [P] has [P]. *)
Lemma Reachable_invariant a0 a : P a0 -> Reachable a0 a -> P a.
Proof.
  intros H0 Hr. induction Hr as [|a net lookup w Hr IH|a w Hr IH|a horizon Hr IH].
  - exact H0.
  - apply (checkAppHealth_preserves net lookup (load a w)). split; exact IH.
  - apply (aggregateOne_preserves (load a w)). split; exact IH.
  - apply P_pull. exact IH.
Qed.

End CycleInvariant.

Lemma observed_incidents status rt now a :
  appIncidents (observed status rt now a) = appIncidents a.
Proof.
  unfold observed, appIncidents. destruct rt; destruct (status =? "up");
    try destruct ((status =? "down") || (status =? "warning")); reflexivity.
Qed.

(** No assignment of a check cycle touches the incidents list. *)
Lemma checkCycle_incidents net lookup a w :
  appIncidents (doc (checkCycle net lookup a w)) = appIncidents a
  /\ appIncidents (stored (checkCycle net lookup a w)) = appIncidents a.
Proof.
  apply (checkAppHealth_preserves (fun x => appIncidents x = appIncidents a));
    try (split; reflexivity); intros; try assumption.
  rewrite observed_incidents. assumption.
Qed.

Lemma filter_kept_length {A} (p q : A -> bool) (l : list A) :
  (forall x, p x = true -> q x = true) ->
  List.length (filter p (filter q l)) = List.length (filter p l).
Proof.
  intros Hpq. induction l as [|x l IH]; [reflexivity|].
  cbn [filter]. destruct (p x) eqn:Px.
  - rewrite (Hpq x Px). cbn [filter]. rewrite Px. cbn [List.length].
    rewrite IH. reflexivity.
  - destruct (q x); cbn [filter]; rewrite ?Px; exact IH.
Qed.

(** The cleanup pulls resolved incidents only. *)
Lemma pullStale_openDowntimes horizon a :
  openDowntimes (pullStale horizon a) = openDowntimes a.
Proof.
  unfold openDowntimes, pullStale, appIncidents. cbn.
  apply filter_kept_length. intros i Hi.
  unfold isOpenDowntime in Hi. unfold isStale.
  destruct (resolved i); [discriminate|].
  rewrite andb_false_r. reflexivity.
Qed.

(** The engine neither opens nor closes a downtime incident. *)
Lemma Reachable_openDowntimes a0 a :
  Reachable a0 a -> openDowntimes a = openDowntimes a0.
Proof.
  apply (Reachable_invariant (fun x => openDowntimes x = openDowntimes a0));
    try reflexivity; intros; try assumption.
  - unfold openDowntimes in *. rewrite observed_incidents. assumption.
  - rewrite pullStale_openDowntimes. assumption.
Qed.

Lemma Reachable_countersOk a0 a : countersOk a0 -> Reachable a0 a -> countersOk a.
Proof.
  apply Reachable_invariant; intros; try assumption.
  - apply observed_countersOk. assumption.
  - unfold countersOk, failures, checks in *. cbn. lia.
Qed.

(** ** Incidents *)

(** C1. A check cycle never appends an incident, whatever it observes: the
    incidents list of the document, in memory and as saved, is the one the
    cycle started with. In particular a target that was up and is observed
    down (HTTP 503, first failure of the streak) ends the cycle down with
    one consecutive failure and still no incident. *)
Theorem checkCycle_opens_no_incident :
  (forall net lookup a w,
      appIncidents (doc (checkCycle net lookup a w)) = appIncidents a
      /\ appIncidents (stored (checkCycle net lookup a w)) = appIncidents a)
  /\ (let s' := checkCycle (answers 80 503) UserFound upApp (calm 1000) in
      healthStatus upApp = "up"
      /\ healthStatus (stored s') = "down"
      /\ failures (stored s') = 1
      /\ appIncidents (stored s') = []).
Proof.
  split.
  - intros net lookup a w. apply checkCycle_incidents.
  - vm_compute. repeat split; reflexivity.
Qed.

(** C3. Every record that check cycles, aggregation runs and cleanups make
    of a record with at most one unresolved downtime incident has at most
    one, and a check cycle run on it, whatever it observes (a down
    observation included), leaves the incidents list as it is: no second
    unresolved downtime incident is appended. *)
Theorem at_most_one_open_downtime (a0 a : App) :
  (openDowntimes a0 <= 1)%nat ->
  Reachable a0 a ->
  (openDowntimes a <= 1)%nat
  /\ forall net lookup w,
       appIncidents (stored (checkCycle net lookup a w)) = appIncidents a
       /\ (openDowntimes (stored (checkCycle net lookup a w)) <= 1)%nat.
Proof.
  intros H0 Hr.
  assert (Ha : (openDowntimes a <= 1)%nat).
  { rewrite (Reachable_openDowntimes _ _ Hr). exact H0. }
  split; [exact Ha|].
  intros net lookup w.
  destruct (checkCycle_incidents net lookup a w) as [_ E].
  split; [exact E|]. unfold openDowntimes. rewrite E. exact Ha.
Qed.

Lemma at_most_one_open_downtime_witness :
  let a := stored (checkCycle (answers 80 503) UserFound downApp (calm 1000)) in
  openDowntimes downApp = 1%nat
  /\ (openDowntimes a <= 1)%nat
  /\ forall net lookup w,
       appIncidents (stored (checkCycle net lookup a w)) = appIncidents a
       /\ (openDowntimes (stored (checkCycle net lookup a w)) <= 1)%nat.
Proof.
  split; [reflexivity|].
  apply (at_most_one_open_downtime downApp).
  - vm_compute. lia.
  - apply reach_check. apply reach_start.
Defined.

(** C4, as stated, fails: a target that was down with an open downtime
    incident and is observed up ends the cycle up, with the incident still
    unresolved and without an end time. *)
Lemma recovery_leaves_outage_open :
  let s' := checkCycle (answers 120 200) UserFound downApp (calm 1000) in
  healthStatus downApp = "down"
  /\ appIncidents downApp = [outage]
  /\ healthStatus (stored s') = "up"
  /\ appIncidents (stored s') = [outage]
  /\ resolved outage = false
  /\ endTime outage = None.
Proof. vm_compute. repeat split; reflexivity. Qed.

Lemma resolveIn_found (k now : Z) (before : list Incident) (i : Incident)
    (after : list Incident) :
  (forall j, In j before -> inc_oid j <> k) ->
  inc_oid i = k ->
  resolveIn k now (before ++ i :: after)%list = (before ++ markResolved now i :: after)%list.
Proof.
  intros Hb Hi. induction before as [|j before IH]; cbn [resolveIn app].
  - rewrite Hi, Z.eqb_refl. reflexivity.
  - destruct (Z.eqb_spec (inc_oid j) k) as [E|_].
    + exfalso. apply (Hb j); [left; reflexivity | exact E].
    + rewrite IH; [reflexivity|]. intros j' Hj'. apply Hb. right. exact Hj'.
Qed.

Lemma resolveIn_missing (k now : Z) (l : list Incident) :
  (forall j, In j l -> inc_oid j <> k) -> resolveIn k now l = l.
Proof.
  intros Hl. induction l as [|j l IH]; cbn [resolveIn]; [reflexivity|].
  destruct (Z.eqb_spec (inc_oid j) k) as [E|_].
  - exfalso. apply (Hl j); [left; reflexivity | exact E].
  - rewrite IH; [reflexivity|]. intros j' Hj'. apply Hl. right. exact Hj'.
Qed.

Lemma resolveIncident_doc (k : Z) (s : State) :
  appIncidents (doc (exec (resolveIncident k) s))
  = resolveIn k (clock (world s)) (appIncidents (doc s)).
Proof.
  unfold resolveIncident, exec, bind, modifyMonitoring, modifyDoc, Date_now, save.
  cbn. destruct (rejects (world s)) as [|[|] r]; reflexivity.
Qed.

(** C4, amended. A check cycle never resolves an incident: whatever it
    observes, a recovery from 'down' to 'up' included, the incidents list is
    left as it was. An incident is resolved by [resolveIncident(incidentId)]
    alone: the first incident with that key is marked resolved, its
    [endTime] is stamped with the current time and its [duration] is
    [endTime - startTime] in whole seconds; every other incident, and every
    other field of that one, is unchanged; with no incident of that key the
    list is unchanged. *)
Theorem resolveIncident_resolves_by_id :
  (forall net lookup a w,
      appIncidents (doc (checkCycle net lookup a w)) = appIncidents a
      /\ appIncidents (stored (checkCycle net lookup a w)) = appIncidents a)
  /\ (forall (k : Z) (s : State) (before : list Incident) (i : Incident)
             (after : list Incident),
        appIncidents (doc s) = (before ++ i :: after)%list ->
        (forall j, In j before -> inc_oid j <> k) ->
        inc_oid i = k ->
        let i' := markResolved (clock (world s)) i in
        appIncidents (doc (exec (resolveIncident k) s)) = (before ++ i' :: after)%list
        /\ resolved i' = true
        /\ endTime i' = Some (clock (world s))
        /\ duration i' = Some ((clock (world s) - startTime i) / 1000)
        /\ inc_type i' = inc_type i /\ severity i' = severity i
        /\ startTime i' = startTime i)
  /\ (forall (k : Z) (s : State),
        (forall j, In j (appIncidents (doc s)) -> inc_oid j <> k) ->
        appIncidents (doc (exec (resolveIncident k) s)) = appIncidents (doc s)).
Proof.
  split; [|split].
  - intros net lookup a w. apply checkCycle_incidents.
  - intros k s before i after E Hb Hi i'.
    rewrite resolveIncident_doc, E, (resolveIn_found k _ before i after Hb Hi).
    repeat split.
  - intros k s Hl. rewrite resolveIncident_doc. apply resolveIn_missing. exact Hl.
Qed.

Example resolveIncident_outage :
  appIncidents (doc (exec (resolveIncident 7) (load downApp (calm 4000))))
  = [markResolved 4000 outage]
  /\ duration (markResolved 4000 outage) = Some 3.
Proof. split; reflexivity. Qed.

(** The statement that opens an incident does open one when it is reached
    on the first failure of a streak with status 'down'. *)
Lemma openIncidentIfNew_opens (s : State) (error : option string) :
  failures (doc s) = 1 ->
  exists i,
    appIncidents (doc (exec (openIncidentIfNew "down" error) s))
    = (appIncidents (doc s) ++ [i])%list
    /\ inc_type i = "downtime" /\ severity i = "high" /\ resolved i = false
    /\ startTime i = clock (world s).
Proof.
  intros Hf. destruct s as [d st [i c r en tr]].
  unfold openIncidentIfNew, exec, bind, getDoc. cbn [doc] in *. rewrite Hf.
  cbn -[showZ]. eexists. split.
  - destruct r as [|[|] r]; reflexivity.
  - repeat split.
Qed.

(** ** The health state machine *)

(** C5. [updateHealthStatus] sets [consecutiveFailures] to 0 on 'up',
    whatever it was; on 'down' and on 'warning' it adds exactly 1 and stamps
    [lastFailure] with the current time; on any other status it leaves both
    as they were. *)
Theorem updateHealthStatus_consecutiveFailures :
  forall (s : State) (status : string) (rt : option Z),
    let a' := doc (exec (updateHealthStatus status rt) s) in
    (status = "up" -> failures a' = 0)
    /\ (status = "down" \/ status = "warning" ->
        failures a' = failures (doc s) + 1
        /\ lastFailure (monitoring a') = Some (clock (world s)))
    /\ (status <> "up" -> status <> "down" -> status <> "warning" ->
        failures a' = failures (doc s)
        /\ lastFailure (monitoring a') = lastFailure (monitoring (doc s))).
Proof.
  intros s status rt a'. subst a'. rewrite updateHealthStatus_doc.
  rewrite observed_failures, observed_lastFailure.
  repeat split.
  - intros ->. reflexivity.
  - destruct H as [-> | ->]; reflexivity.
  - destruct H as [-> | ->]; reflexivity.
  - apply String.eqb_neq in H, H0, H1. rewrite H, H0, H1. reflexivity.
  - apply String.eqb_neq in H, H0, H1. rewrite H, H0, H1. reflexivity.
Qed.

(** C6. On every record the engine makes of a record whose failure streak
    is a count of its checks, [updateHealthStatus] leaves
    [uptimePercentage] equal to
    (checksPerformed - consecutiveFailures) / checksPerformed * 100 over the
    counters as they stand after the update, and that value lies between 0
    and 100. *)
Theorem updateHealthStatus_uptime (a0 a : App) (w : World)
    (status : string) (rt : option Z) :
  countersOk a0 ->
  Reachable a0 a ->
  let a' := doc (exec (updateHealthStatus status rt) (load a w)) in
  (uptime a' == inject_Z (checks a' - failures a') / inject_Z (checks a') * 100)%Q
  /\ (0 <= uptime a' <= 100)%Q.
Proof.
  intros H0 Hr a'. subst a'. rewrite updateHealthStatus_doc. cbn [load doc world].
  pose proof (Reachable_countersOk _ _ H0 Hr) as Ha.
  pose proof (observed_countersOk status rt (clock w) a Ha) as Hc.
  pose proof (observed_checks status rt (clock w) a) as Hn.
  assert (Hpos : 0 < checks (observed status rt (clock w) a))
    by (unfold countersOk in Ha; lia).
  rewrite observed_uptime.
  rewrite (Z.max_l _ 1) by lia.
  split; [reflexivity|].
  apply percentage_bounds; [unfold countersOk in Hc; lia | exact Hpos].
Qed.

Lemma updateHealthStatus_uptime_witness :
  let a := stored (checkCycle (answers 80 503) UserFound deployedApp (calm 1000)) in
  let a' := doc (exec (updateHealthStatus "down" (Some 75)) (load a (calm 31000))) in
  checks a' = 2 /\ failures a' = 2
  /\ (uptime a' == inject_Z (checks a' - failures a') / inject_Z (checks a') * 100)%Q
  /\ (0 <= uptime a' <= 100)%Q.
Proof.
  split; [reflexivity|]. split; [reflexivity|].
  apply (updateHealthStatus_uptime deployedApp).
  - unfold countersOk. vm_compute. split; discriminate.
  - apply reach_check. apply reach_start.
Defined.

(** ** Counting restart attempts *)

Lemma preserves_after {A B} (I : State -> Prop) (m : M A) (k : A -> M B) s :
  I (exec m s) -> (forall a, preserves I (k a)) -> I (exec (bind m k) s).
Proof.
  intros Hm Hk. unfold exec, bind in *. destruct (m s) as [[a|e] s1]; cbn in *.
  - apply Hk. exact Hm.
  - exact Hm.
Qed.

Lemma quiet_modifyDoc n f : preserves (attemptsAre n) (modifyDoc f).
Proof. intros s H. exact H. Qed.

Lemma quiet_elapse n d : preserves (attemptsAre n) (elapse d).
Proof. intros s H. exact H. Qed.

Lemma quiet_fresh n : preserves (attemptsAre n) fresh.
Proof. intros s H. exact H. Qed.

Lemma quiet_save n : preserves (attemptsAre n) save.
Proof.
  intros s H. unfold attemptsAre. rewrite save_world. exact H.
Qed.

Lemma quiet_emit n e : isAttempt e = false -> preserves (attemptsAre n) (emit e).
Proof.
  intros He s H. unfold attemptsAre, attempts, exec, emit, modifyWorld in *.
  cbn. rewrite He. exact H.
Qed.

Lemma quiet_axios_get n net u t v : preserves (attemptsAre n) (axios_get net u t v).
Proof.
  unfold axios_get. apply preserves_bind; [apply quiet_elapse|].
  intros _. destruct (netResult _) as [st|c msg].
  - destruct (v st); [apply preserves_ret | apply preserves_throw].
  - apply preserves_throw.
Qed.

Ltac quiet_step :=
  first
    [ apply preserves_bind; [|intro]
    | apply preserves_tryCatch; [|intro]
    | apply preserves_ret
    | apply preserves_throw
    | apply preserves_getDoc
    | apply preserves_getWorld
    | apply preserves_Date_now
    | apply quiet_modifyDoc
    | apply quiet_elapse
    | apply quiet_fresh
    | apply quiet_save
    | apply quiet_axios_get
    | apply quiet_emit; reflexivity
    | match goal with
      | |- preserves _ (if ?b then _ else _) => destruct b
      | |- preserves _ (match ?x with _ => _ end) => destruct x
      end ].

Lemma attempts_logged evs s :
  filter isAttempt evs = [] -> attempts (world (logged evs s)) = attempts (world s).
Proof.
  intros H. unfold attempts, logged. cbn. rewrite filter_app, H. reflexivity.
Qed.

Lemma quiet_updateHealthStatus n status rt :
  preserves (attemptsAre n) (updateHealthStatus status rt).
Proof.
  intros s H. unfold exec. rewrite updateHealthStatus_observed.
  apply (quiet_save n (set_doc _ s)). exact H.
Qed.

Lemma quiet_checkAlertConditions n lookup status rt error :
  preserves (attemptsAre n) (checkAlertConditions lookup status rt error).
Proof.
  intros s H. unfold exec.
  destruct (checkAlertConditions_effect lookup status rt error s) as [evs [E Hq]].
  rewrite E. unfold attemptsAre. cbn [snd]. rewrite attempts_logged; assumption.
Qed.

Lemma quiet_emitHealthUpdate n : preserves (attemptsAre n) emitHealthUpdate.
Proof. unfold emitHealthUpdate. repeat quiet_step. Qed.

Lemma quiet_simulateRestart n : preserves (attemptsAre n) simulateRestart.
Proof. unfold simulateRestart, modifyMonitoring. repeat quiet_step. Qed.

Lemma quiet_probe n net startTime : preserves (attemptsAre n) (probe net startTime).
Proof. unfold probe. repeat first [ progress cbv zeta | quiet_step ]. Qed.

Lemma isAttempt_restartAttemptLog app : isAttempt (restartAttemptLog app) = true.
Proof. unfold restartAttemptLog. cbn. destruct (appName app); reflexivity. Qed.

(** An attempt logs its opening line once, whatever happens next. *)
Lemma attemptAutoRestart_attempts n s :
  attemptsAre n s -> attemptsAre (S n) (exec attemptAutoRestart s).
Proof.
  intros H.
  assert (E : exec attemptAutoRestart s
              = exec (tryCatch
                        (modifyDoc (set_healthStatus "restarting") ;;
                         save ;;
                         emitHealthUpdate ;;
                         simulateRestart ;;
                         emit (LogInfo ("Auto-restart completed for app "
                                        ++ appName (doc s))))
                        (fun err =>
                           app <- getDoc ;;
                           emit (LogError ("Auto-restart failed for app " ++ appId app)) ;;
                           modifyDoc (set_healthStatus "down") ;;
                           save ;;
                           emitHealthUpdate))
                     (exec (emit (restartAttemptLog (doc s))) s))
    by reflexivity.
  rewrite E.
  assert (H1 : attemptsAre (S n) (exec (emit (restartAttemptLog (doc s))) s)).
  { unfold attemptsAre, attempts, exec, emit, modifyWorld in *.
    cbn [snd world set_world set_trace trace filter].
    rewrite isAttempt_restartAttemptLog. cbn [List.length]. rewrite H. reflexivity. }
  revert H1. generalize (exec (emit (restartAttemptLog (doc s))) s).
  change (preserves (attemptsAre (S n))
            (tryCatch
               (modifyDoc (set_healthStatus "restarting") ;;
                save ;;
                emitHealthUpdate ;;
                simulateRestart ;;
                emit (LogInfo ("Auto-restart completed for app " ++ appName (doc s))))
               (fun err =>
                  app <- getDoc ;;
                  emit (LogError ("Auto-restart failed for app " ++ appId app)) ;;
                  modifyDoc (set_healthStatus "down") ;;
                  save ;;
                  emitHealthUpdate))).
  repeat first
    [ apply quiet_emitHealthUpdate | apply quiet_simulateRestart | quiet_step ].
Qed.

(** ** The check cycle, step by step *)

Lemma probe_effect net startTime s :
  exists o s1,
    probe net startTime s = (Ok o, s1)
    /\ doc s1 = doc s /\ stored s1 = stored s
    /\ rejects (world s1) = rejects (world s)
    /\ (o = None <-> hasUrl (doc s) = false).
Proof.
  destruct s as [d st [i c r en tr]].
  unfold probe, tryCatch, bind, getDoc, hasUrl. cbn [doc].
  destruct (truthy (orElse (fullUrl d) (url (deployment d)))) eqn:Hu; cbn [negb].
  - cbv zeta. unfold axios_get, bind, elapse, emit, modifyWorld. cbn.
    destruct (netResult _) as [status|code msg].
    + destruct (status <? 500)%Z; cbn.
      * eexists _, _. split; [reflexivity|]. cbn. repeat split; try discriminate.
      * eexists _, _. split; [reflexivity|]. cbn. repeat split; try discriminate.
    + cbn. eexists _, _. split; [reflexivity|]. cbn. repeat split; try discriminate.
  - cbn. eexists _, _. split; [reflexivity|]. cbn. repeat split; reflexivity.
Qed.

Lemma exec_bind_ok {A B} (m : M A) (k : A -> M B) s a s1 :
  m s = (Ok a, s1) -> exec (bind m k) s = exec (k a) s1.
Proof. intros E. unfold exec, bind. rewrite E. reflexivity. Qed.


(** In a cycle whose probe ran and whose update was saved, the restart is
    attempted exactly when [shouldAutoRestart] holds of the updated record. *)
Lemma checkCycle_attempts net lookup a w p :
  result (probe net (clock w)) (load a w) = Ok (Some p) ->
  hd false (rejects w) = false ->
  let s1 := exec (probe net (clock w)) (load a w) in
  let a1 := observed (probeStatus p) (Some (probeResponseTime p)) (clock (world s1)) a in
  attempts (world (checkCycle net lookup a w))
  = (if shouldAutoRestart a1 then S (attempts w) else attempts w).
Proof.
  intros Hp Hr. cbv zeta.
  pose proof (quiet_probe (attempts w) net (clock w) (load a w) eq_refl) as Hq.
  destruct (probe_effect net (clock w) (load a w)) as [o [s1 [E [Hd [Hs [Hrej _]]]]]].
  assert (Es1 : exec (probe net (clock w)) (load a w) = s1)
    by (unfold exec; rewrite E; reflexivity).
  rewrite Es1 in *.
  unfold result in Hp. rewrite E in Hp. cbn [fst] in Hp. injection Hp as ->.
  cbn [load doc stored world] in *.
  unfold checkCycle, checkAppHealth.
  rewrite (exec_bind_ok Date_now _ (load a w) (clock w) (load a w) eq_refl).
  cbn [load world]. 
  rewrite (exec_bind_ok _ _ _ _ _ E).
  cbv zeta.
  assert (E2 : updateHealthStatus (probeStatus p) (Some (probeResponseTime p)) s1
               = (Ok tt, {| doc := observed (probeStatus p) (Some (probeResponseTime p)) (clock (world s1)) a;
                            stored := observed (probeStatus p) (Some (probeResponseTime p)) (clock (world s1)) a;
                            world := set_rejects (tl (rejects (world s1))) (world s1) |})).
  { rewrite updateHealthStatus_observed. unfold save. cbn [set_doc world doc]. rewrite Hd, Hrej.
    destruct (rejects w) as [|[|] r]; [reflexivity | discriminate | reflexivity]. }
  rewrite (exec_bind_ok _ _ _ _ _ E2).
  match goal with |- context [exec _ ?s] => set (s2 := s) end.
  destruct (checkAlertConditions_effect lookup (probeStatus p) (Some (probeResponseTime p)) (probeError p) s2) as [evs [E3 Hevs]].
  rewrite (exec_bind_ok _ _ _ _ _ E3).
  rewrite (exec_bind_ok getDoc _ (logged evs s2) (doc s2) (logged evs s2) eq_refl).
  assert (H3 : attemptsAre (attempts w) (logged evs s2)).
  { unfold attemptsAre. rewrite attempts_logged by assumption. exact Hq. }
  cbn [s2 doc].
  destruct (shouldAutoRestart _).
  - apply (preserves_after (attemptsAre (S (attempts w)))).
    + apply attemptAutoRestart_attempts. exact H3.
    + intros _. repeat first [ apply quiet_emitHealthUpdate | quiet_step ].
  - apply (preserves_after (attemptsAre (attempts w))).
    + exact H3.
    + intros _. repeat first [ apply quiet_emitHealthUpdate | quiet_step ].
Qed.

(** ** Automatic restart *)

Lemma shouldAutoRestart_true_iff (a : App) :
  shouldAutoRestart a = true
  <-> autoRestart (configuration a) = true /\ healthStatus a = "down" /\ failures a >= 3.
Proof.
  unfold shouldAutoRestart, failures.
  rewrite !andb_true_iff, String.eqb_eq, Z.geb_le. intuition lia.
Qed.

(** The record [patientApp] is what two failed checks leave of a new
    deployed target, the clock and the key of the restart policy apart. *)
Example patientApp_after_two_failed_checks :
  let a0 := set_configuration (set_maxRestartAttempts 5 (configuration deployedApp))
              deployedApp in
  let a1 := stored (checkCycle (answers 80 503) UserFound a0 (calm 0)) in
  let a2 := stored (checkCycle (answers 80 503) UserFound a1 (calm 820)) in
  healthStatus a2 = healthStatus patientApp
  /\ checks a2 = checks patientApp
  /\ failures a2 = failures patientApp
  /\ (uptime a2 == uptime patientApp)%Q
  /\ lastFailure (monitoring a2) = lastFailure (monitoring patientApp)
  /\ appIncidents a2 = appIncidents patientApp
  /\ configuration a2 = configuration patientApp.
Proof. vm_compute. repeat split; reflexivity. Qed.

(** C7, as stated, fails: with the configured threshold at 5, the third
    consecutive 'down' observation of a target whose two checks so far
    failed already starts a restart. The update leaves three checks, three
    failures and an uptime percentage of 0. *)
Lemma restart_ignores_configured_threshold :
  let a1 := doc (exec (updateHealthStatus "down" (Some 80)) (load patientApp (calm 1080))) in
  checks patientApp = 2 /\ failures patientApp = 2
  /\ checks a1 = 3 /\ (uptime a1 == 0)%Q
  /\ autoRestart (configuration a1) = true
  /\ healthStatus a1 = "down"
  /\ maxRestartAttempts (configuration a1) = 5
  /\ failures a1 = 3
  /\ ~ failures a1 >= maxRestartAttempts (configuration a1)
  /\ shouldAutoRestart a1 = true
  /\ attempts (world (checkCycle (answers 80 503) UserFound patientApp (calm 1000))) = 1%nat.
Proof.
  vm_compute. repeat split; try reflexivity. intros H. apply H. reflexivity.
Qed.

(** C7, amended. In a check cycle whose probe ran and whose state update was
    saved, a restart is attempted if and only if, on the record as updated,
    [autoRestart] is set, [healthStatus] is 'down' and
    [consecutiveFailures] is at least 3; otherwise none is attempted. The
    threshold is the constant 3: no configured value, [maxRestartAttempts]
    included, enters the decision. *)
Theorem restart_attempted_iff (net : Network) (lookup : Lookup) (a : App)
    (w : World) (p : Probe) :
  result (probe net (clock w)) (load a w) = Ok (Some p) ->
  hd false (rejects w) = false ->
  let a1 := doc (exec (updateHealthStatus (probeStatus p) (Some (probeResponseTime p)))
                   (exec (probe net (clock w)) (load a w))) in
  let after := attempts (world (checkCycle net lookup a w)) in
  (after = S (attempts w)
   <-> autoRestart (configuration a1) = true /\ healthStatus a1 = "down" /\ failures a1 >= 3)
  /\ (after = attempts w
      <-> ~ (autoRestart (configuration a1) = true /\ healthStatus a1 = "down"
             /\ failures a1 >= 3))
  /\ (forall v,
        shouldAutoRestart (set_configuration (set_maxRestartAttempts v (configuration a1)) a1)
        = shouldAutoRestart a1).
Proof.
  intros Hp Hr a1 after.
  pose proof (checkCycle_attempts net lookup a w p Hp Hr) as H. cbv zeta in H.
  assert (Ea : a1 = observed (probeStatus p) (Some (probeResponseTime p))
                      (clock (world (exec (probe net (clock w)) (load a w)))) a).
  { subst a1. rewrite updateHealthStatus_doc. f_equal.
    destruct (probe_effect net (clock w) (load a w)) as [o [s1 [E [Hd _]]]].
    unfold exec. rewrite E. exact Hd. }
  rewrite <- Ea in H. fold after in H.
  rewrite <- shouldAutoRestart_true_iff.
  split; [|split]; [| |intros v; reflexivity];
    destruct (shouldAutoRestart a1); rewrite H; split; intros; try reflexivity;
    try congruence; try lia.
Qed.

Lemma restart_attempted_iff_witness :
  let p := {| probeStatus := "down"; probeResponseTime := 80;
              probeError := Some "Request failed with status code 503" |} in
  let a1 := doc (exec (updateHealthStatus (probeStatus p) (Some (probeResponseTime p)))
                   (exec (probe (answers 80 503) 1000) (load patientApp (calm 1000)))) in
  let after := attempts (world (checkCycle (answers 80 503) UserFound patientApp (calm 1000))) in
  (after = 1%nat
   <-> autoRestart (configuration a1) = true /\ healthStatus a1 = "down" /\ failures a1 >= 3)
  /\ (after = 0%nat
      <-> ~ (autoRestart (configuration a1) = true /\ healthStatus a1 = "down"
             /\ failures a1 >= 3))
  /\ (forall v,
        shouldAutoRestart (set_configuration (set_maxRestartAttempts v (configuration a1)) a1)
        = shouldAutoRestart a1).
Proof.
  apply (restart_attempted_iff (answers 80 503) UserFound patientApp (calm 1000)
           {| probeStatus := "down"; probeResponseTime := 80;
              probeError := Some "Request failed with status code 503" |});
    reflexivity.
Defined.

(** ** Remediation *)

(** C8. When neither of the two [save()] calls of the attempt rejects, it
    returns normally and the record ends, in memory and as saved, with
    [consecutiveFailures] 0, [healthStatus] 'up' and [lastCheck] stamped
    with the current time. When the attempt throws, be it the save that
    marks the record 'restarting' or the restart call itself, the record's
    [healthStatus] is set back to 'down', not to 'unknown', and that is
    what is saved if the handler completes. *)
Theorem attemptAutoRestart_outcome :
  forall s : State,
    let s' := exec attemptAutoRestart s in
    let markRejected := hd false (rejects (world s)) in
    let restartRejected := hd false (tl (rejects (world s))) in
    (markRejected = false -> restartRejected = false ->
       result attemptAutoRestart s = Ok tt
       /\ failures (doc s') = 0
       /\ healthStatus (doc s') = "up"
       /\ lastCheck (doc s') = clock (world s')
       /\ stored s' = doc s')
    /\ (markRejected = true \/ (markRejected = false /\ restartRejected = true) ->
       healthStatus (doc s') = "down"
       /\ healthStatus (doc s') <> "unknown"
       /\ (result attemptAutoRestart s = Ok tt -> healthStatus (stored s') = "down")).
Proof.
  intros [d st [i c r en tr]].
  destruct r as [|[|] [|[|] [|[|] r]]]; destruct i; cbn;
    (split; [intros H1 H2 | intros H]);
    try discriminate; try (destruct H as [H|[H H']]; discriminate);
    repeat split; try reflexivity; try discriminate.
Qed.

Example attemptAutoRestart_succeeds :
  let s' := exec attemptAutoRestart (load downApp (calm 1000)) in
  healthStatus (doc s') = "up" /\ failures (doc s') = 0 /\ lastCheck (doc s') = 3000.
Proof. repeat split; reflexivity. Qed.

Example attemptAutoRestart_fails :
  let w := set_rejects [false; true] (calm 1000) in
  let s' := exec attemptAutoRestart (load downApp w) in
  healthStatus (doc s') = "down" /\ healthStatus (stored s') = "down".
Proof. split; reflexivity. Qed.

(** ** The probe *)

Lemma classifyResponse_spec (st : Z) :
  (200 <= st < 400 -> classifyResponse st = "up")
  /\ (400 <= st < 500 -> classifyResponse st = "warning")
  /\ (st < 200 \/ 500 <= st -> classifyResponse st = "down").
Proof.
  unfold classifyResponse.
  destruct (Z.geb_spec st 200), (Z.ltb_spec st 400), (Z.geb_spec st 400),
    (Z.ltb_spec st 500); cbn; repeat split; intros; try reflexivity; lia.
Qed.

Lemma classifyError_code (c : option string) (msg : string) :
  let err := {| errCode := c; errResponseStatus := None; errMessage := msg |} in
  (c = Some "ECONNREFUSED" \/ c = Some "ENOTFOUND" \/ c = Some "ETIMEDOUT" ->
   classifyError err = "down")
  /\ (c <> Some "ECONNREFUSED" -> c <> Some "ENOTFOUND" -> c <> Some "ETIMEDOUT" ->
      classifyError err = "warning").
Proof.
  cbv zeta. unfold classifyError, codeIs. cbn. split.
  - intros [-> | [-> | ->]]; reflexivity.
  - intros H1 H2 H3. destruct c as [c|]; [|reflexivity].
    destruct (String.eqb_spec c "ECONNREFUSED"); [subst; contradiction|].
    destruct (String.eqb_spec c "ENOTFOUND"); [subst; contradiction|].
    destruct (String.eqb_spec c "ETIMEDOUT"); [subst; contradiction|].
    reflexivity.
Qed.

Lemma classifyError_status (st : Z) (msg : string) :
  500 <= st ->
  classifyError {| errCode := None; errResponseStatus := Some st; errMessage := msg |}
  = "down".
Proof.
  intros H. unfold classifyError, codeIs. cbn.
  destruct (Z.geb_spec st 500); [reflexivity | lia].
Qed.

(** C9. The probe never throws: it returns either no outcome, exactly when
    the application has no URL, or one of the three statuses. For the
    request it made, an HTTP status in 200..399 gives 'up', one in 400..499
    gives 'warning' and one from 500 up gives 'down' with a diagnostic
    text; a transport failure with code ECONNREFUSED, ENOTFOUND or
    ETIMEDOUT gives 'down', any other transport failure gives 'warning',
    both with the error message as diagnostic text. In particular the
    timeout of the request itself, which axios reports under the code
    ECONNABORTED, is classified 'warning' and not 'down', for every target
    with a URL and every configured timeout. *)
Theorem probe_classification :
  (forall (net : Network) (startTime : Z) (s : State),
  exists o : option Probe,
    result (probe net startTime) s = Ok o
    /\ (o = None <-> hasUrl (doc s) = false)
    /\ forall p, o = Some p ->
         (probeStatus p = "up" \/ probeStatus p = "warning" \/ probeStatus p = "down")
         /\ match netResult (net (checkUrlOf (doc s)) (timeoutOf (doc s))) with
            | HttpResponse st =>
                (200 <= st < 400 -> probeStatus p = "up")
                /\ (400 <= st < 500 -> probeStatus p = "warning")
                /\ (500 <= st -> probeStatus p = "down")
                /\ (st < 500 -> probeError p = None)
                /\ (500 <= st -> exists msg, probeError p = Some msg)
            | NetFailure c msg =>
                (c = Some "ECONNREFUSED" \/ c = Some "ENOTFOUND"
                 \/ c = Some "ETIMEDOUT" -> probeStatus p = "down")
                /\ (c <> Some "ECONNREFUSED" -> c <> Some "ENOTFOUND" ->
                    c <> Some "ETIMEDOUT" -> probeStatus p = "warning")
                /\ probeError p = Some msg
            end)
  /\ (forall (startTime : Z) (s : State),
        hasUrl (doc s) = true ->
        result (probe timedOut startTime) s
        = Ok (Some {| probeStatus := "warning";
                      probeResponseTime :=
                        clock (world s) + timeoutOf (doc s) - startTime;
                      probeError :=
                        Some ("timeout of " ++ showZ (timeoutOf (doc s))
                              ++ "ms exceeded") |})).
Proof.
  split.
  2: { intros startTime [d st [i c r en tr]] Hu. unfold hasUrl in Hu. cbn [doc] in Hu.
       unfold result, probe, tryCatch, bind, getDoc. cbn [doc]. rewrite Hu. cbn [negb].
       cbv zeta. unfold axios_get, bind, elapse, emit, modifyWorld, timedOut.
       cbn -[classifyError classifyResponse checkUrlOf timeoutOf showZ].
       reflexivity. }
  intros net startTime [d st [i c r en tr]].
  unfold result, probe, tryCatch, bind, getDoc, hasUrl. cbn [doc].
  destruct (truthy (orElse (fullUrl d) (url (deployment d)))) eqn:Hu; cbn [negb].
  2: { cbn. eexists. split; [reflexivity|]. split; [split; reflexivity|]. discriminate. }
  cbv zeta. unfold axios_get, bind, elapse, emit, modifyWorld.
  cbn -[classifyError classifyResponse checkUrlOf timeoutOf].
  destruct (netResult (net (checkUrlOf d) (timeoutOf d))) as [status|code msg] eqn:En.
  - destruct (Z.ltb_spec status 500) as [Hlt|Hge];
      cbn -[classifyError classifyResponse checkUrlOf timeoutOf].
    + eexists. split; [reflexivity|]. split; [split; discriminate|].
      intros p [= <-]. cbn [probeStatus probeError].
      destruct (classifyResponse_spec status) as [H1 [H2 H3]].
      split.
      * destruct (Z.lt_ge_cases status 200); [right; right; apply H3; lia|].
        destruct (Z.lt_ge_cases status 400); [left; apply H1; lia|].
        right; left; apply H2; lia.
      * repeat split; intros; try lia; auto.
    + eexists. split; [reflexivity|]. split; [split; discriminate|].
      intros p [= <-]. cbn [probeStatus probeError].
      split.
      * right; right. apply classifyError_status. exact Hge.
      * repeat split; intros; try lia; try (apply classifyError_status; exact Hge).
        eexists. reflexivity.
  - cbn -[classifyError classifyResponse checkUrlOf timeoutOf].
    eexists. split; [reflexivity|]. split; [split; discriminate|].
    intros p [= <-]. cbn [probeStatus probeError].
    destruct (classifyError_code code msg) as [H1 H2]. cbv zeta in H1, H2.
    split.
    + unfold classifyError. cbn [errResponseStatus].
      destruct (codeIs _ _ || codeIs _ _ || codeIs _ _); auto.
    + repeat split; assumption.
Qed.

Example probe_refused :
  result (probe (fails 3 "ECONNREFUSED" "connect ECONNREFUSED") 1000)
         (load deployedApp (calm 1000))
  = Ok (Some {| probeStatus := "down"; probeResponseTime := 3;
                probeError := Some "connect ECONNREFUSED" |}).
Proof. reflexivity. Qed.

(** A failure reported under any other code takes the default branch: so
    does the timeout of the request itself, after 30 seconds here. *)
Example probe_aborted :
  result (probe (fails 30000 "ECONNABORTED" "timeout of 30000ms exceeded") 1000)
         (load deployedApp (calm 1000))
  = Ok (Some {| probeStatus := "warning"; probeResponseTime := 30000;
                probeError := Some "timeout of 30000ms exceeded" |}).
Proof. reflexivity. Qed.

Example probe_not_found :
  result (probe (answers 40 404) 1000) (load deployedApp (calm 1000))
  = Ok (Some {| probeStatus := "warning"; probeResponseTime := 40;
                probeError := None |}).
Proof. reflexivity. Qed.

(** ** Aggregation *)


Lemma storeHealthy_savesResolve n w : storeHealthy w -> savesResolve n w.
Proof.
  unfold storeHealthy, savesResolve. generalize (rejects w) as r.
  induction n as [|n IH]; intros r H; [constructor|].
  destruct H as [|b r Hb Hr]; [constructor|].
  cbn [firstn]. constructor; [exact Hb | apply IH; exact Hr].
Qed.







(** * Further properties of the engine *)

(** ** Counting alerts *)

Lemma silent_modifyDoc n f : preserves (alertsAre n) (modifyDoc f).
Proof. intros s H. exact H. Qed.

Lemma silent_elapse n d : preserves (alertsAre n) (elapse d).
Proof. intros s H. exact H. Qed.

Lemma silent_save n : preserves (alertsAre n) save.
Proof. intros s H. unfold alertsAre. rewrite save_world. exact H. Qed.

Lemma silent_emit n e : isAlert e = false -> preserves (alertsAre n) (emit e).
Proof.
  intros He s H. unfold alertsAre, alerts, exec, emit, modifyWorld in *.
  cbn. rewrite He. exact H.
Qed.

Lemma silent_axios_get n net u t v : preserves (alertsAre n) (axios_get net u t v).
Proof.
  unfold axios_get. apply preserves_bind; [apply silent_elapse|].
  intros _. destruct (netResult _) as [st|c msg].
  - destruct (v st); [apply preserves_ret | apply preserves_throw].
  - apply preserves_throw.
Qed.

Ltac silent_step :=
  first
    [ apply preserves_bind; [|intro]
    | apply preserves_tryCatch; [|intro]
    | apply preserves_ret
    | apply preserves_throw
    | apply preserves_getDoc
    | apply preserves_getWorld
    | apply preserves_Date_now
    | apply silent_modifyDoc
    | apply silent_elapse
    | apply silent_save
    | apply silent_axios_get
    | apply silent_emit; reflexivity
    | match goal with
      | |- preserves _ (if ?b then _ else _) => destruct b
      | |- preserves _ (match ?x with _ => _ end) => destruct x
      end ].

Lemma silent_probe n net startTime : preserves (alertsAre n) (probe net startTime).
Proof. unfold probe. repeat first [ progress cbv zeta | silent_step ]. Qed.

Lemma silent_emitHealthUpdate n : preserves (alertsAre n) emitHealthUpdate.
Proof. unfold emitHealthUpdate. repeat silent_step. Qed.

Lemma silent_attemptAutoRestart n : preserves (alertsAre n) attemptAutoRestart.
Proof.
  unfold attemptAutoRestart, simulateRestart, restartAttemptLog, modifyMonitoring.
  repeat first [ apply silent_emitHealthUpdate | silent_step ].
Qed.

(** What [checkAlertConditions] does, case by case. *)
Lemma checkAlertConditions_run lookup status rt error s :
  checkAlertConditions lookup status rt error s
  = (Ok tt,
     logged
       match lookup with
       | UserFound =>
           if shouldSendAlert (doc s) status rt
           then [AlertSent (determineAlertSeverity status (failures (doc s)) rt)
                   status (failures (doc s))]
           else []
       | UserMissing => []
       | LookupFails =>
           [LogError ("Error checking alert conditions for app " ++ appId (doc s))]
       end s).
Proof.
  destruct s as [d st [i c r en tr]].
  unfold checkAlertConditions, tryCatch, bind, logged.
  destruct lookup; cbn; try reflexivity.
  destruct (shouldSendAlert d status rt) eqn:E; [|reflexivity].
  pose proof (shouldSendAlert_failures _ _ _ E) as Hf.
  unfold sendAlert, openIncidentIfNew, bind; cbn.
  replace (failures d =? 1)%Z with false by (symmetry; apply Z.eqb_neq; lia).
  reflexivity.
Qed.

(** X1. [checkAlertConditions] never throws and never touches the document,
    the database, the clock or the pending saves: all it leaves is on the
    trace. It hands exactly one alert to the notification service when the
    user is found and [shouldSendAlert] holds of the document, and none
    otherwise, be the user missing or the lookup failing. *)
Theorem checkAlertConditions_alert_once :
  forall (lookup : Lookup) (status : string) (rt error : option _) (s : State),
    let s' := exec (checkAlertConditions lookup status rt error) s in
    result (checkAlertConditions lookup status rt error) s = Ok tt
    /\ doc s' = doc s /\ stored s' = stored s
    /\ clock (world s') = clock (world s)
    /\ rejects (world s') = rejects (world s)
    /\ alerts (world s')
       = (if match lookup with UserFound => shouldSendAlert (doc s) status rt
                              | _ => false end
          then S (alerts (world s)) else alerts (world s)).
Proof.
  intros lookup status rt error s s'. subst s'. unfold exec, result.
  rewrite checkAlertConditions_run. cbn [fst snd].
  repeat split.
  unfold alerts, logged. cbn [world set_world set_trace trace].
  destruct lookup; [destruct (shouldSendAlert (doc s) status rt)| |]; reflexivity.
Qed.

Lemma exec_bind_post {A B} (P Q : State -> Prop) (m : M A) (k : A -> M B) s :
  P (exec m s) ->
  (forall s', P s' -> Q s') ->
  (forall a s', P s' -> Q (exec (k a) s')) ->
  Q (exec (bind m k) s).
Proof.
  intros Hm Hthrow Hk. unfold exec, bind in *. destruct (m s) as [[a|e] s1]; cbn in *.
  - apply Hk. exact Hm.
  - apply Hthrow. exact Hm.
Qed.

(** A record on which [shouldSendAlert] cannot hold after one more check. *)
Lemma shouldSendAlert_quiet (a : App) (status : string) (rt : option Z) :
  failures a < 2 \/ monitoringEnabled a = false ->
  shouldSendAlert a status rt = false.
Proof.
  intros H. destruct (shouldSendAlert a status rt) eqn:E; [|reflexivity].
  apply shouldSendAlert_true_iff in E. destruct E as [He E].
  destruct H as [H|H]; [|congruence].
  destruct E as [[_ Hf]|[[t [_ [_ Hf]]]|[_ Hf]]]; lia.
Qed.

Lemma observed_monitoringEnabled status rt now a :
  monitoringEnabled (observed status rt now a) = monitoringEnabled a.
Proof. reflexivity. Qed.

(** X2. A check cycle of a target that had no consecutive failure before
    it, or whose monitoring is disabled, sends no alert, whatever the probe
    observes, whoever the user is and whichever saves reject. *)
Theorem first_failure_never_alerts (net : Network) (lookup : Lookup) (a : App)
    (w : World) :
  failures a = 0 \/ monitoringEnabled a = false ->
  alerts (world (checkCycle net lookup a w)) = alerts w.
Proof.
  intros Hq.
  pose proof (silent_probe (alerts w) net (clock w) (load a w) eq_refl) as Hs.
  destruct (probe_effect net (clock w) (load a w)) as [o [s1 [E [Hd _]]]].
  unfold exec in Hs. rewrite E in Hs. cbn [snd load doc] in *.
  unfold checkCycle, checkAppHealth.
  rewrite (exec_bind_ok Date_now _ (load a w) (clock w) (load a w) eq_refl).
  cbn [load world]. rewrite (exec_bind_ok _ _ _ _ _ E).
  destruct o as [p|]; [|exact Hs].
  cbv zeta.
  apply (exec_bind_post
           (fun s => alertsAre (alerts w) s
                     /\ (failures (doc s) < 2 \/ monitoringEnabled (doc s) = false))
           (alertsAre (alerts w))).
  - split.
    + unfold exec; rewrite updateHealthStatus_observed; apply (silent_save (alerts w) (set_doc _ s1)); exact Hs.
    + rewrite updateHealthStatus_doc, Hd, observed_failures, observed_monitoringEnabled.
      destruct Hq as [Hq|Hq]; [left | right; exact Hq].
      rewrite Hq. destruct (probeStatus p =? "up");
        try destruct ((probeStatus p =? "down") || (probeStatus p =? "warning")); lia.
  - intros s' [H _]. exact H.
  - intros _ s2 [Ha Hdoc].
    rewrite (exec_bind_ok _ _ _ _ _ (checkAlertConditions_run _ _ _ _ s2)).
    rewrite (shouldSendAlert_quiet _ _ _ Hdoc).
    assert (H3 : alertsAre (alerts w)
                   (logged match lookup with
                           | UserFound => []
                           | UserMissing => []
                           | LookupFails =>
                               [LogError ("Error checking alert conditions for app "
                                          ++ appId (doc s2))]
                           end s2)).
    { unfold alertsAre, alerts, logged in *. cbn [world set_world set_trace trace].
      destruct lookup; exact Ha. }
    revert H3. generalize (logged match lookup with
                                  | UserFound => [] | UserMissing => []
                                  | LookupFails => [LogError ("Error checking alert conditions for app " ++ appId (doc s2))]
                                  end s2).
    change (preserves (alertsAre (alerts w))
              (app <- getDoc ;;
               (if shouldAutoRestart app then attemptAutoRestart else ret tt) ;;
               emitHealthUpdate ;;
               app' <- getDoc ;;
               emit (LogDebug ("Health check completed for " ++ appName app' ++ ": "
                               ++ probeStatus p ++ " ("
                               ++ showZ (probeResponseTime p) ++ "ms)")))).
    repeat first [ apply silent_emitHealthUpdate | apply silent_attemptAutoRestart
                 | silent_step ].
Qed.

Lemma first_failure_never_alerts_witness :
  alerts (world (checkCycle (answers 80 503) UserFound deployedApp (calm 1000)))
  = alerts (calm 1000).
Proof.
  apply (first_failure_never_alerts (answers 80 503) UserFound deployedApp (calm 1000)).
  left. reflexivity.
Defined.

(** The third consecutive 'down' observation does alert. *)
Example third_failure_alerts :
  alerts (world (checkCycle (answers 80 503) UserFound patientApp (calm 1000))) = 1%nat.
Proof. reflexivity. Qed.

(** ** Alert severity *)

Lemma slowerThan_cases (bound : Z) (rt : option Z) :
  0 <= bound ->
  (slowerThan bound rt = true
   /\ (exists t, rt = Some t /\ t > bound)
   /\ ~ (forall t, rt = Some t -> t <= bound))
  \/ (slowerThan bound rt = false
      /\ ~ (exists t, rt = Some t /\ t > bound)
      /\ (forall t, rt = Some t -> t <= bound)).
Proof.
  intros Hb. pose proof (slowerThan_spec bound rt Hb) as Hs.
  destruct (slowerThan bound rt).
  - left. destruct (proj1 Hs eq_refl) as [t [Et Ht]]. split; [reflexivity|]. split.
    + exists t. split; assumption.
    + intros H. specialize (H t Et). lia.
  - right. split; [reflexivity|]. split.
    + intros H. apply Hs in H. discriminate.
    + intros t Et. destruct (Z.le_gt_cases t bound) as [|Hgt]; [assumption|].
      assert (false = true) by (apply Hs; exists t; split; [exact Et | lia]).
      discriminate.
Qed.

(** X3. [determineAlertSeverity] answers one of the four severities the
    e-mail and Slack renderings have a colour for. It is 'critical' exactly
    for a 'down' status at five or more consecutive failures, 'high' for
    any other 'down', 'medium' for another status with a response time
    above 10000 ms, and 'low' in all remaining cases. *)
Theorem alert_severity_has_colour :
  forall (status : string) (fails : Z) (rt : option Z),
    let sev := determineAlertSeverity status fails rt in
    (exists colour, severityColors sev = Some colour)
    /\ (sev = "critical" <-> status = "down" /\ fails >= 5)
    /\ (sev = "high" <-> status = "down" /\ fails < 5)
    /\ (sev = "medium" <-> status <> "down" /\ exists t, rt = Some t /\ t > 10000)
    /\ (sev = "low" <-> status <> "down" /\ forall t, rt = Some t -> t <= 10000).
Proof.
  intros status fails rt sev. subst sev. unfold determineAlertSeverity.
  destruct (slowerThan_cases 10000 rt ltac:(lia)) as [[Es [Hslow Hnot]]|[Es [Hslow Hnot]]];
    rewrite Es; clear Es;
    generalize dependent (exists t, rt = Some t /\ t > 10000);
    generalize dependent (forall t, rt = Some t -> t <= 10000);
    intros N HN S HS;
    destruct (String.eqb_spec status "down") as [Hd|Hd];
    destruct (Z.geb_spec fails 5) as [H5|H5]; cbn [andb];
    try destruct (status =? "warning");
    (split; [eexists; reflexivity|]);
    repeat match goal with |- _ /\ _ => split end;
    (split; [intros E; try discriminate E; try (split; [assumption|]); try assumption; try lia
            | intros [H1 H2]; try contradiction; try lia; try reflexivity]).
Qed.

(** ** Uptime over a history of checks *)

Lemma uptimeStatus_excellent (a : App) :
  (uptime a == 100)%Q -> uptimeStatus a = "excellent".
Proof.
  intros H. unfold uptimeStatus, uptime in *. cbv zeta.
  replace (Qle_bool (999 # 10) (uptimePercentage (monitoring a))) with true;
    [reflexivity|].
  symmetry. apply Qle_bool_iff. rewrite H. discriminate.
Qed.

Lemma uptimeStatus_poor (a : App) :
  (uptime a < 95)%Q -> uptimeStatus a = "poor".
Proof.
  intros H. unfold uptimeStatus, uptime in *. cbv zeta.
  assert (F : forall q, (95 <= q)%Q -> Qle_bool q (uptimePercentage (monitoring a)) = false).
  { intros q Hq. destruct (Qle_bool q _) eqn:E; [|reflexivity].
    apply Qle_bool_iff in E. exfalso.
    apply (Qlt_irrefl 95). eapply Qle_lt_trans; [exact Hq|].
    eapply Qle_lt_trans; [exact E | exact H]. }
  rewrite !F; [reflexivity | | |]; discriminate.
Qed.

(** X4. One 'up' observation puts the uptime percentage at 100 and the
    [uptimeStatus] virtual at 'excellent', whatever the history of the
    record was, provided [checksPerformed] is not negative: the percentage
    is computed from the current streak only. *)
Theorem up_observation_full_uptime (s : State) (rt : option Z) :
  0 <= checks (doc s) ->
  let a' := doc (exec (updateHealthStatus "up" rt) s) in
  (uptime a' == 100)%Q /\ uptimeStatus a' = "excellent".
Proof.
  intros Hc a'. subst a'.
  assert (H : (uptime (doc (exec (updateHealthStatus "up" rt) s)) == 100)%Q).
  { rewrite updateHealthStatus_doc, observed_uptime, observed_checks, observed_failures.
    cbn [String.eqb Ascii.eqb Bool.eqb]. rewrite Z.sub_0_r, (Z.max_l _ 1) by lia.
    destruct (checks (doc s) + 1) as [|p|p] eqn:E; try lia.
    unfold Qeq, Qdiv, Qmult, Qinv, inject_Z; cbn. lia. }
  split; [exact H | apply uptimeStatus_excellent; exact H].
Qed.

Lemma up_observation_full_uptime_witness :
  let a' := doc (exec (updateHealthStatus "up" (Some 120)) (load downApp (calm 5000))) in
  (uptime a' == 100)%Q /\ uptimeStatus a' = "excellent".
Proof.
  apply (up_observation_full_uptime (load downApp (calm 5000)) (Some 120)).
  discriminate.
Defined.

Lemma observeAll_app obs1 obs2 s :
  observeAll (obs1 ++ obs2)%list s = observeAll obs2 (observeAll obs1 s).
Proof. unfold observeAll. apply fold_left_app. Qed.

Lemma observeAll_cons o obs s :
  observeAll (o :: obs) s = observeAll obs (exec (updateHealthStatus (fst o) (snd o)) s).
Proof. reflexivity. Qed.

Lemma observeAll_uptime (obs : list (string * option Z)) (s : State) :
  obs <> [] ->
  let a' := doc (observeAll obs s) in
  uptime a'
  = (inject_Z (checks a' - failures a') / inject_Z (Z.max (checks a') 1) * 100)%Q.
Proof.
  intros Hne. destruct (exists_last Hne) as [obs0 [o ->]]. cbv zeta.
  rewrite observeAll_app, observeAll_cons. cbn [observeAll fold_left].
  rewrite updateHealthStatus_doc. apply observed_uptime.
Qed.

Lemma observeAll_failing (obs : list (string * option Z)) (s : State) :
  Forall (fun o => fst o = "down" \/ fst o = "warning") obs ->
  failures (doc (observeAll obs s)) = failures (doc s) + Z.of_nat (List.length obs)
  /\ checks (doc (observeAll obs s)) = checks (doc s) + Z.of_nat (List.length obs).
Proof.
  intros Hobs. revert s. induction Hobs as [|o obs Ho _ IH]; intros s.
  - cbn. lia.
  - rewrite observeAll_cons. destruct (IH (exec (updateHealthStatus (fst o) (snd o)) s))
      as [H1 H2].
    rewrite H1, H2, updateHealthStatus_doc, observed_failures, observed_checks.
    cbn [List.length]. destruct Ho as [-> | ->]; cbn [String.eqb Ascii.eqb Bool.eqb orb]; lia.
Qed.

(** X6. A run of 'down' or 'warning' observations adds its length to both
    [consecutiveFailures] and [checksPerformed]. On a record whose checks
    all failed so far, any such non-empty run leaves the uptime percentage
    at 0 and the [uptimeStatus] virtual at 'poor'. *)
Theorem failing_streak_counts (obs : list (string * option Z)) (s : State) :
  Forall (fun o => fst o = "down" \/ fst o = "warning") obs ->
  let a' := doc (observeAll obs s) in
  failures a' = failures (doc s) + Z.of_nat (List.length obs)
  /\ checks a' = checks (doc s) + Z.of_nat (List.length obs)
  /\ (obs <> [] -> failures (doc s) = checks (doc s) -> 0 <= checks (doc s) ->
      (uptime a' == 0)%Q /\ uptimeStatus a' = "poor").
Proof.
  intros Hobs a'. subst a'. destruct (observeAll_failing obs s Hobs) as [H1 H2].
  split; [exact H1|]. split; [exact H2|].
  intros Hne Heq Hc.
  assert (H : (uptime (doc (observeAll obs s)) == 0)%Q).
  { rewrite (observeAll_uptime obs s Hne). rewrite H1, H2, Heq, Z.sub_diag.
    unfold Qdiv. rewrite !Qmult_0_l. reflexivity. }
  split; [exact H|]. apply uptimeStatus_poor. rewrite H. reflexivity.
Qed.

Lemma failing_streak_counts_witness :
  let obs := [("down", Some 80); ("warning", Some 95); ("down", None)] in
  let a' := doc (observeAll obs (load deployedApp (calm 1000))) in
  failures a' = 3 /\ checks a' = 3
  /\ (obs <> [] -> failures deployedApp = checks deployedApp -> 0 <= checks deployedApp ->
      (uptime a' == 0)%Q /\ uptimeStatus a' = "poor").
Proof.
  apply (failing_streak_counts [("down", Some 80); ("warning", Some 95); ("down", None)]
           (load deployedApp (calm 1000))).
  repeat first
    [ apply Forall_nil
    | apply Forall_cons; [cbn; first [left; reflexivity | right; reflexivity]|] ].
Defined.

(** X7. On every record the engine makes of a record with
    0 <= consecutiveFailures <= checksPerformed (by check cycles with their
    restarts, aggregation runs and cleanups), the same bounds hold and
    [checksPerformed] has not decreased. *)
Theorem counters_bounded_and_monotone (a0 a : App) :
  countersOk a0 ->
  Reachable a0 a ->
  0 <= failures a <= checks a /\ checks a0 <= checks a.
Proof.
  intros H0 Hr.
  assert (Hp : countersOk a0 /\ checks a0 <= checks a0) by (split; [exact H0 | lia]).
  revert Hp Hr.
  apply (Reachable_invariant (fun x => countersOk x /\ checks a0 <= checks x)).
  - intros v x H. exact H.
  - intros v x H. exact H.
  - intros status rt now x [H1 H2]. split; [apply observed_countersOk; exact H1|].
    rewrite observed_checks. lia.
  - intros x [H1 H2]. split; [|exact H2].
    unfold countersOk, failures, checks in *. cbn. lia.
  - intros v x H. exact H.
  - intros h x H. exact H.
Qed.

Lemma counters_bounded_and_monotone_witness :
  let a := stored (checkCycle (answers 80 503) UserFound downApp (calm 1000)) in
  0 <= failures a <= checks a /\ checks downApp <= checks a.
Proof.
  apply (counters_bounded_and_monotone downApp).
  - unfold countersOk. vm_compute. split; discriminate.
  - apply reach_check. apply reach_start.
Defined.

(** ** A saved check and the next tick *)

Lemma since_modifyDoc t f :
  (forall a, lastCheck (f a) = lastCheck a) -> preserves (checkedSince t) (modifyDoc f).
Proof.
  intros Hf s [H1 [H2 H3]]. unfold checkedSince, exec, modifyDoc. cbn.
  rewrite Hf. repeat split; assumption.
Qed.

Lemma since_emit t e : preserves (checkedSince t) (emit e).
Proof. intros s H. exact H. Qed.

Lemma since_save t : preserves (checkedSince t) save.
Proof.
  intros s [H1 [H2 H3]]. unfold checkedSince.
  rewrite save_doc, save_stored, save_world. cbn.
  destruct (hd false (rejects (world s))); repeat split; assumption.
Qed.

Lemma since_emitHealthUpdate t : preserves (checkedSince t) emitHealthUpdate.
Proof.
  unfold emitHealthUpdate.
  apply preserves_bind; [apply preserves_getWorld|]. intros w0.
  destruct (negb (io w0)); [apply preserves_ret|].
  apply preserves_bind; [apply preserves_getDoc|]. intros a0. apply since_emit.
Qed.

Lemma since_simulateRestart t : preserves (checkedSince t) simulateRestart.
Proof.
  intros s [H1 [H2 H3]].
  unfold checkedSince, simulateRestart, exec, bind, elapse, modifyMonitoring,
    modifyDoc, modifyWorld, Date_now, save. cbn.
  destruct (rejects (world s)) as [|[|] r]; cbn; repeat split; lia.
Qed.

Lemma since_attemptAutoRestart t : preserves (checkedSince t) attemptAutoRestart.
Proof.
  unfold attemptAutoRestart.
  repeat first
    [ apply since_emitHealthUpdate
    | apply since_simulateRestart
    | apply since_emit
    | apply since_save
    | apply since_modifyDoc; intros; reflexivity
    | apply preserves_getDoc
    | apply preserves_tryCatch; [|intro]
    | apply preserves_bind; [|intro] ].
Qed.

Lemma since_checkAlertConditions t lookup status rt error :
  preserves (checkedSince t) (checkAlertConditions lookup status rt error).
Proof.
  intros s H. unfold exec.
  destruct (checkAlertConditions_effect lookup status rt error s) as [evs [E _]].
  rewrite E. exact H.
Qed.

(** The probe lets time pass and touches nothing else. *)
Lemma probe_clock net startTime s :
  (forall u t, 0 <= elapsed (net u t)) ->
  clock (world s) <= clock (world (exec (probe net startTime) s)).
Proof.
  intros Hnet. destruct s as [d st [i c r en tr]].
  unfold exec, probe, tryCatch, bind, getDoc. cbn [doc].
  destruct (truthy (orElse (fullUrl d) (url (deployment d)))); cbn [negb].
  - cbv zeta. unfold axios_get, bind, elapse, emit, modifyWorld.
    cbn -[classifyError classifyResponse checkUrlOf timeoutOf].
    pose proof (Hnet (checkUrlOf d) (timeoutOf d)) as He.
    destruct (netResult (net (checkUrlOf d) (timeoutOf d))) as [status|code msg].
    + destruct (status <? 500)%Z; cbn; lia.
    + cbn. lia.
  - cbn. lia.
Qed.

(** X8. After a check cycle of a target with a URL whose first save
    resolved, against a network whose answers take no negative time, the
    stored [lastCheck] is not before the start of the cycle; so the query
    of [findAppsForMonitoring] does not select the record again at any time
    up to 30 seconds after that start. *)
Theorem saved_check_not_due (net : Network) (lookup : Lookup) (a : App) (w : World) :
  hasUrl a = true ->
  hd false (rejects w) = false ->
  (forall u t, 0 <= elapsed (net u t)) ->
  let a' := stored (checkCycle net lookup a w) in
  clock w <= lastCheck a'
  /\ forall now, now <= clock w + 30000 -> dueForMonitoring now a' = false.
Proof.
  intros Hu Hr Hnet a'.
  assert (H : clock w <= lastCheck a').
  { subst a'.
    pose proof (probe_clock net (clock w) (load a w) Hnet) as Hclk.
    destruct (probe_effect net (clock w) (load a w)) as [o [s1 [E [Hd [Hs [Hrej Ho]]]]]].
    unfold exec in Hclk. rewrite E in Hclk. cbn [snd load world doc stored] in *.
    destruct o as [p|]; [|rewrite (proj1 Ho eq_refl) in Hu; discriminate].
    unfold checkCycle, checkAppHealth.
    rewrite (exec_bind_ok Date_now _ (load a w) (clock w) (load a w) eq_refl).
    cbn [load world]. rewrite (exec_bind_ok _ _ _ _ _ E). cbv zeta.
    assert (E2 : updateHealthStatus (probeStatus p) (Some (probeResponseTime p)) s1
                 = (Ok tt,
                    {| doc := observed (probeStatus p) (Some (probeResponseTime p))
                                (clock (world s1)) a;
                       stored := observed (probeStatus p) (Some (probeResponseTime p))
                                   (clock (world s1)) a;
                       world := set_rejects (tl (rejects (world s1))) (world s1) |})).
    { rewrite updateHealthStatus_observed. unfold save. cbn [set_doc world doc].
      rewrite Hd, Hrej. destruct (rejects w) as [|[|] r];
        [reflexivity | discriminate | reflexivity]. }
    rewrite (exec_bind_ok _ _ _ _ _ E2).
    match goal with |- context [exec _ ?s] => set (s2 := s) end.
    assert (H2 : checkedSince (clock w) s2).
    { unfold checkedSince, s2. cbn. repeat split; exact Hclk. }
    assert (H3 : checkedSince (clock w)
                   (exec (checkAlertConditions lookup (probeStatus p)
                            (Some (probeResponseTime p)) (probeError p) ;;
                          app <- getDoc ;;
                          (if shouldAutoRestart app then attemptAutoRestart else ret tt) ;;
                          emitHealthUpdate ;;
                          app' <- getDoc ;;
                          emit (LogDebug ("Health check completed for " ++ appName app'
                                          ++ ": " ++ probeStatus p ++ " ("
                                          ++ showZ (probeResponseTime p) ++ "ms)"))) s2)).
    { revert H2. generalize s2.
      change (preserves (checkedSince (clock w))
                (checkAlertConditions lookup (probeStatus p)
                   (Some (probeResponseTime p)) (probeError p) ;;
                 app <- getDoc ;;
                 (if shouldAutoRestart app then attemptAutoRestart else ret tt) ;;
                 emitHealthUpdate ;;
                 app' <- getDoc ;;
                 emit (LogDebug ("Health check completed for " ++ appName app'
                                 ++ ": " ++ probeStatus p ++ " ("
                                 ++ showZ (probeResponseTime p) ++ "ms)")))).
      repeat first
        [ apply since_checkAlertConditions
        | apply since_attemptAutoRestart
        | apply since_emitHealthUpdate
        | apply since_emit
        | apply preserves_bind; [|intro]
        | apply preserves_getDoc
        | apply preserves_ret
        | match goal with
          | |- preserves _ (if ?b then _ else _) => destruct b
          end ]. }
    exact (proj1 (proj2 H3)). }
  split; [exact H|].
  intros now Hnow. unfold dueForMonitoring.
  replace (lastCheck a' <? now - 30000)%Z with false
    by (symmetry; apply Z.ltb_ge; lia).
  apply andb_false_r.
Qed.

Lemma saved_check_not_due_witness :
  let a' := stored (checkCycle (answers 80 503) UserFound downApp (calm 1000)) in
  1000 <= lastCheck a'
  /\ forall now, now <= 1000 + 30000 -> dueForMonitoring now a' = false.
Proof.
  apply (saved_check_not_due (answers 80 503) UserFound downApp (calm 1000));
    [reflexivity | reflexivity | intros u t; discriminate].
Defined.

Lemma checkAppHealth_no_url (net : Network) (lookup : Lookup) (a : App) (w : World) :
  hasUrl a = false ->
  checkAppHealth net lookup (load a w)
  = (Ok tt, logged [LogWarn ("No URL found for app " ++ appId a)] (load a w)).
Proof.
  intros Hu. unfold hasUrl in Hu.
  cbv beta iota zeta delta [checkAppHealth bind probe tryCatch getDoc Date_now
                              load doc world].
  rewrite Hu. reflexivity.
Qed.

(** X9. A check cycle of a target with neither custom domain nor deployment
    URL returns normally, leaves document, database and clock as they were
    and logs one warning: no check is counted and [lastCheck] is not
    stamped, so the record stays as due for monitoring as it was. *)
Theorem check_without_url_changes_nothing (net : Network) (lookup : Lookup)
    (a : App) (w : World) :
  hasUrl a = false ->
  let s' := checkCycle net lookup a w in
  result (checkAppHealth net lookup) (load a w) = Ok tt
  /\ doc s' = a /\ stored s' = a
  /\ clock (world s') = clock w
  /\ trace (world s') = LogWarn ("No URL found for app " ++ appId a) :: trace w
  /\ forall now, dueForMonitoring now (stored s') = dueForMonitoring now a.
Proof.
  intros Hu s'. subst s'.
  unfold checkCycle, exec, result. rewrite (checkAppHealth_no_url net lookup a w Hu).
  cbn. repeat split.
Qed.

Lemma check_without_url_changes_nothing_witness :
  let a := newApp "app_9" "user_1" "draft" 0 in
  let s' := checkCycle (answers 80 200) UserFound a (calm 1000) in
  result (checkAppHealth (answers 80 200) UserFound) (load a (calm 1000)) = Ok tt
  /\ doc s' = a /\ stored s' = a
  /\ clock (world s') = 1000
  /\ trace (world s') = [LogWarn ("No URL found for app " ++ appId a)]
  /\ forall now, dueForMonitoring now (stored s') = dueForMonitoring now a.
Proof.
  apply (check_without_url_changes_nothing (answers 80 200) UserFound
           (newApp "app_9" "user_1" "draft" 0) (calm 1000)).
  reflexivity.
Defined.

(** ** Batches *)

Lemma slice_batch {A} (i : nat) (l : list A) :
  slice i (i + batchSize) l = firstn batchSize (skipn i l).
Proof. unfold slice. replace (i + batchSize - i)%nat with batchSize by lia. reflexivity. Qed.

Lemma batchesFrom_concat {A} (fuel i : nat) (l : list A) :
  (List.length l - i <= fuel)%nat ->
  List.concat (batchesFrom fuel i l) = skipn i l.
Proof.
  revert i. induction fuel as [|fuel IH]; intros i Hf; cbn [batchesFrom].
  - rewrite skipn_all2 by lia. reflexivity.
  - destruct (Nat.ltb_spec i (List.length l)) as [Hi|Hi].
    + cbn [List.concat]. rewrite slice_batch, IH by (unfold batchSize; lia).
      rewrite (Nat.add_comm i batchSize), <- skipn_skipn.
      apply firstn_skipn.
    + rewrite skipn_all2 by lia. reflexivity.
Qed.

Lemma batchesFrom_sizes {A} (fuel i : nat) (l : list A) :
  Forall (fun b => (1 <= List.length b <= batchSize)%nat) (batchesFrom fuel i l).
Proof.
  revert i. induction fuel as [|fuel IH]; intros i; cbn [batchesFrom]; [constructor|].
  destruct (Nat.ltb_spec i (List.length l)) as [Hi|Hi]; [|constructor].
  constructor; [|apply IH].
  rewrite slice_batch, length_firstn, length_skipn. unfold batchSize. lia.
Qed.

Lemma batchesFrom_length {A} (fuel i : nat) (l : list A) :
  (List.length l - i <= fuel)%nat ->
  List.length (batchesFrom fuel i l) = ((List.length l - i + 9) / 10)%nat.
Proof.
  revert i. induction fuel as [|fuel IH]; intros i Hf; cbn [batchesFrom].
  - replace (List.length l - i)%nat with 0%nat by lia. reflexivity.
  - destruct (Nat.ltb_spec i (List.length l)) as [Hi|Hi].
    + cbn [List.length]. rewrite IH by (unfold batchSize; lia). unfold batchSize.
      destruct (Nat.le_gt_cases (List.length l - i) 10) as [Hle|Hgt].
      * replace (List.length l - (i + 10))%nat with 0%nat by lia.
        assert (H : ((List.length l - i + 9) / 10 = 1)%nat).
        { symmetry. apply Nat.div_unique with (r := (List.length l - i - 1)%nat); lia. }
        rewrite H. reflexivity.
      * replace (List.length l - i + 9)%nat
          with ((List.length l - (i + 10) + 9) + 1 * 10)%nat by lia.
        rewrite Nat.div_add by lia. lia.
    + replace (List.length l - i)%nat with 0%nat by lia. reflexivity.
Qed.

Lemma batches_concat {A} (apps : list A) : List.concat (batches apps) = apps.
Proof. unfold batches. rewrite batchesFrom_concat by lia. reflexivity. Qed.

(** X10. The batches of [performMonitoringChecks] are consecutive slices of
    the query result: concatenated they give it back, each holds between 1
    and 10 documents, and there are ceil(n / 10) of them, none for an empty
    result. *)
Theorem batches_partition {A} (apps : list A) :
  List.concat (batches apps) = apps
  /\ Forall (fun b => (1 <= List.length b <= 10)%nat) (batches apps)
  /\ List.length (batches apps) = ((List.length apps + 9) / 10)%nat.
Proof.
  unfold batches. split; [|split].
  - apply batches_concat.
  - apply batchesFrom_sizes.
  - rewrite batchesFrom_length by lia. rewrite Nat.sub_0_r. reflexivity.
Qed.

(** ** A tick *)




(** *** A healthy store stays healthy *)

















(** Three due targets that answer again; the save of the second is
    rejected, so it stays as it was, and the third is checked all the
    same. *)
Example tick_isolates_failures :
  let db := [downApp; withId "app_2" downApp; withId "app_3" downApp] in
  let w := set_rejects [false; true; false] (calm 100000) in
  let out := fst (performMonitoringChecks false (answers 80 200)
                    (fun _ => UserFound) db w) in
  map healthStatus out = ["up"; "down"; "up"]
  /\ map checks out = [5; 4; 5].
Proof. vm_compute. split; reflexivity. Qed.

(** ** Incidents: opening, resolving, pruning *)

Lemma filter_twice {A} (f : A -> bool) (l : list A) :
  filter f (filter f l) = filter f l.
Proof.
  induction l as [|x l IH]; [reflexivity|].
  cbn [filter]. destruct (f x) eqn:E; cbn [filter].
  - rewrite E, IH. reflexivity.
  - exact IH.
Qed.

(** X12. [cleanupOldData] removes from every record exactly the incidents
    that are resolved and started more than 30 days (2592000000 ms) before
    the run: an incident stays if and only if it is unresolved or started
    at or after that horizon. A second run at the same horizon changes
    nothing more, nothing but the incidents list is changed, and when the
    [updateMany] rejects the database is as it was. *)
Theorem cleanup_pulls_stale_resolved_only :
  forall (db : list App) (w : World),
    let horizon := clock w - 2592000000 in
    fst (cleanupOldData false db w) = map (pullStale horizon) db
    /\ fst (cleanupOldData true db w) = db
    /\ (forall a i,
          In i (appIncidents (pullStale horizon a))
          <-> In i (appIncidents a) /\ (resolved i = false \/ horizon <= startTime i))
    /\ (forall a, pullStale horizon (pullStale horizon a) = pullStale horizon a)
    /\ (forall a,
          set_monitoring (set_incidents (appIncidents a) (monitoring (pullStale horizon a)))
            (pullStale horizon a)
          = a).
Proof.
  intros db w horizon. split; [reflexivity|]. split; [reflexivity|].
  split; [|split].
  - intros a i. unfold pullStale, appIncidents. cbn.
    rewrite filter_In. unfold isStale.
    rewrite negb_true_iff, andb_false_iff, Z.ltb_ge.
    destruct (resolved i); intuition congruence.
  - intros a. unfold pullStale. cbn. rewrite filter_twice. reflexivity.
  - intros a. destruct a as [? ? ? ? ? ? ? ? [? ? ? ? ? ?] ? ?]. reflexivity.
Qed.

Lemma createIncident_run type sev descr s :
  let i := {| inc_oid := fst (hd (0, "") (entropy (world s)));
              inc_id := "incident_" ++ showZ (clock (world s)) ++ "_"
                        ++ snd (hd (0, "") (entropy (world s)));
              inc_type := type; severity := sev;
              startTime := clock (world s); endTime := None; duration := None;
              resolved := false; description := descr |} in
  createIncident type sev descr s
  = save (set_world (set_entropy (tl (entropy (world s))) (world s))
            (set_doc (set_monitoring
                        (set_incidents (incidents (monitoring (doc s)) ++ [i])
                           (monitoring (doc s))) (doc s)) s)).
Proof. reflexivity. Qed.

(** The incident [createIncident] makes in state [s]. *)
Lemma createIncident_incidents type sev descr s :
  appIncidents (doc (exec (createIncident type sev descr) s))
  = (appIncidents (doc s)
     ++ [{| inc_oid := fst (hd (0, "") (entropy (world s)));
            inc_id := "incident_" ++ showZ (clock (world s)) ++ "_"
                      ++ snd (hd (0, "") (entropy (world s)));
            inc_type := type; severity := sev;
            startTime := clock (world s); endTime := None; duration := None;
            resolved := false; description := descr |}])%list.
Proof.
  unfold exec. rewrite createIncident_run. cbv zeta. unfold save. cbn -[showZ].
  destruct (rejects (world s)) as [|[|] r]; reflexivity.
Qed.

(** X13. [createIncident] appends exactly one incident at the end of the
    list: unresolved, of the given type, severity and description, without
    end time or duration, started at the current time. When its save
    resolves the document is stored as it is in memory; when it rejects
    the call throws and the stored document is as before. *)
Theorem createIncident_appends_one :
  forall (type sev descr : string) (s : State),
    let s' := exec (createIncident type sev descr) s in
    exists i,
      appIncidents (doc s') = (appIncidents (doc s) ++ [i])%list
      /\ inc_type i = type /\ severity i = sev /\ description i = descr
      /\ resolved i = false /\ endTime i = None /\ duration i = None
      /\ startTime i = clock (world s)
      /\ inc_oid i = fst (hd (0, "") (entropy (world s)))
      /\ (hd false (rejects (world s)) = false ->
          result (createIncident type sev descr) s = Ok tt /\ stored s' = doc s')
      /\ (hd false (rejects (world s)) = true ->
          result (createIncident type sev descr) s = Throw saveError
          /\ stored s' = stored s).
Proof.
  intros type sev descr s s'. subst s'. unfold exec, result.
  rewrite createIncident_run. cbv zeta.
  eexists. unfold save. cbn -[showZ].
  destruct (rejects (world s)) as [|[|] r]; cbn -[showZ];
    repeat split; intros; try discriminate; reflexivity.
Qed.

Lemma resolveIn_twice (k t1 t2 : Z) (l : list Incident) :
  resolveIn k t2 (resolveIn k t1 l) = resolveIn k t2 l.
Proof.
  induction l as [|i l IH]; [reflexivity|].
  cbn [resolveIn]. destruct (Z.eqb_spec (inc_oid i) k) as [E|E]; cbn [resolveIn].
  - cbn [markResolved inc_oid]. rewrite E, Z.eqb_refl. reflexivity.
  - destruct (Z.eqb_spec (inc_oid i) k); [contradiction|]. rewrite IH. reflexivity.
Qed.

(** X14. [resolveIncident] does not look at [resolved]: resolving an
    incident a second time, [later] ms after the first, stamps it again, so
    the list is the one a single call at the later time gives, with the
    [endTime] and the [duration] of the later call. *)
Theorem resolveIncident_last_call_wins :
  forall (k : Z) (s : State) (later : Z),
    let s1 := exec (resolveIncident k) s in
    let s2 := exec (resolveIncident k) (exec (elapse later) s1) in
    appIncidents (doc s2)
    = resolveIn k (clock (world s) + later) (appIncidents (doc s))
    /\ forall before i after,
         appIncidents (doc s) = (before ++ i :: after)%list ->
         (forall j, In j before -> inc_oid j <> k) ->
         inc_oid i = k ->
         appIncidents (doc s2)
         = (before ++ markResolved (clock (world s) + later) i :: after)%list.
Proof.
  intros k s later s1 s2.
  assert (E : appIncidents (doc s2)
              = resolveIn k (clock (world s) + later) (appIncidents (doc s))).
  { subst s2 s1. rewrite resolveIncident_doc.
    change (doc (exec (elapse later) (exec (resolveIncident k) s)))
      with (doc (exec (resolveIncident k) s)).
    change (clock (world (exec (elapse later) (exec (resolveIncident k) s))))
      with (clock (world (exec (resolveIncident k) s)) + later).
    rewrite resolveIncident_doc.
    assert (Hc : clock (world (exec (resolveIncident k) s)) = clock (world s)).
    { unfold resolveIncident, exec, bind, modifyMonitoring, modifyDoc, Date_now, save.
      cbn. destruct (rejects (world s)) as [|[|] r]; reflexivity. }
    rewrite Hc. apply resolveIn_twice. }
  split; [exact E|].
  intros before i after El Hb Hi. rewrite E, El. apply resolveIn_found; assumption.
Qed.

Lemma markResolved_not_open now i : isOpenDowntime (markResolved now i) = false.
Proof. reflexivity. Qed.

Lemma openDowntimes_app_resolved (l : list Incident) (i : Incident) :
  resolved i = true ->
  List.length (filter isOpenDowntime (l ++ [i])) = List.length (filter isOpenDowntime l).
Proof.
  intros Hr. rewrite filter_app, length_app. cbn [filter].
  unfold isOpenDowntime at 2. rewrite Hr. cbn. lia.
Qed.

(** X15. An incident opened by [createIncident] under a key no incident of
    the record has, and resolved [later] ms afterwards by [resolveIncident]
    under that key, ends the list resolved, with the opening time as its
    start, an end [later] ms after it and a duration of floor(later / 1000)
    seconds; the number of unresolved downtime incidents is what it was
    before the opening. *)
Theorem open_then_resolve (type sev descr : string) (s : State) (later : Z) :
  let k := fst (hd (0, "") (entropy (world s))) in
  (forall j, In j (appIncidents (doc s)) -> inc_oid j <> k) ->
  let s2 := exec (resolveIncident k)
              (exec (elapse later) (exec (createIncident type sev descr) s)) in
  exists i,
    appIncidents (doc s2) = (appIncidents (doc s) ++ [i])%list
    /\ inc_type i = type /\ severity i = sev
    /\ resolved i = true
    /\ startTime i = clock (world s)
    /\ endTime i = Some (clock (world s) + later)
    /\ duration i = Some (later / 1000)
    /\ openDowntimes (doc s2) = openDowntimes (doc s).
Proof.
  intros k Hfresh s2. subst s2.
  pose proof (createIncident_incidents type sev descr s) as E.
  set (i := {| inc_oid := fst (hd (0, "") (entropy (world s)));
               inc_id := "incident_" ++ showZ (clock (world s)) ++ "_"
                         ++ snd (hd (0, "") (entropy (world s)));
               inc_type := type; severity := sev;
               startTime := clock (world s); endTime := None; duration := None;
               resolved := false; description := descr |}) in E.
  assert (Hk : inc_oid i = k) by reflexivity.
  assert (Hc : clock (world (exec (createIncident type sev descr) s)) = clock (world s)).
  { unfold exec. rewrite createIncident_run. cbv zeta. unfold save. cbn -[showZ].
    destruct (rejects (world s)) as [|[|] r]; reflexivity. }
  exists (markResolved (clock (world s) + later) i).
  assert (E2 : appIncidents (doc (exec (resolveIncident k)
                                    (exec (elapse later)
                                       (exec (createIncident type sev descr) s))))
               = (appIncidents (doc s)
                  ++ [markResolved (clock (world s) + later) i])%list).
  { rewrite resolveIncident_doc.
    change (doc (exec (elapse later) (exec (createIncident type sev descr) s)))
      with (doc (exec (createIncident type sev descr) s)).
    change (clock (world (exec (elapse later) (exec (createIncident type sev descr) s))))
      with (clock (world (exec (createIncident type sev descr) s)) + later).
    rewrite E, Hc. apply resolveIn_found; [exact Hfresh | exact Hk]. }
  split; [exact E2|].
  repeat split.
  - cbn. do 2 f_equal. lia.
  - unfold openDowntimes. rewrite E2. apply openDowntimes_app_resolved. reflexivity.
Qed.

Lemma open_then_resolve_witness :
  let s := load downApp (set_entropy [(8, "q7w2e")] (calm 5000)) in
  let s2 := exec (resolveIncident 8)
              (exec (elapse 90500) (exec (createIncident "downtime" "high" "again") s)) in
  exists i,
    appIncidents (doc s2) = (appIncidents (doc s) ++ [i])%list
    /\ inc_type i = "downtime" /\ severity i = "high"
    /\ resolved i = true
    /\ startTime i = 5000
    /\ endTime i = Some (5000 + 90500)
    /\ duration i = Some (90500 / 1000)
    /\ openDowntimes (doc s2) = openDowntimes (doc s).
Proof.
  apply (open_then_resolve "downtime" "high" "again"
           (load downApp (set_entropy [(8, "q7w2e")] (calm 5000))) 90500).
  intros j [<-|[]]. discriminate.
Defined.

(** ** The life cycle of the service *)

Lemma setStarted_last v (ts : list Task) (t : Task) :
  setStarted v (List.length ts) (ts ++ [t])
  = (ts ++ [{| cronExpression := cronExpression t; started := v |}])%list.
Proof. induction ts as [|x ts IH]; cbn; [reflexivity | rewrite IH; reflexivity]. Qed.

Lemma setStarted_app_r v (old rest : list Task) (k : nat) :
  setStarted v (List.length old + k) (old ++ rest) = (old ++ setStarted v k rest)%list.
Proof. induction old as [|x old IH]; cbn; [reflexivity | rewrite IH; reflexivity]. Qed.

Lemma filter_allStopped (ts : list Task) : allStopped ts -> filter started ts = [].
Proof.
  intros H. induction H as [|t ts Ht _ IH]; [reflexivity|].
  cbn. rewrite Ht. exact IH.
Qed.

Lemma scheduleJob_tasks name expr svc :
  tasks (scheduleJob name expr svc)
  = (tasks svc ++ [{| cronExpression := expr; started := true |}])%list.
Proof. unfold scheduleJob. cbn [tasks]. apply setStarted_last. Qed.

Lemma start_settled svc : settled svc -> settled (start svc).
Proof.
  unfold settled, start. destruct (isRunning svc) eqn:Er.
  - intros H. cbn. rewrite Er. exact H.
  - intros [Hj Hs]. cbn [isRunning logService scheduleCleanup scheduleMonitoring
                         scheduleJob set_isRunning tasks monitoringJobs].
    rewrite !setStarted_last. cbn [cronExpression]. rewrite Hj.
    exists (tasks svc). split; [exact Hs|]. split.
    + rewrite <- !app_assoc. reflexivity.
    + cbn [mapSet String.eqb Ascii.eqb Bool.eqb].
      rewrite !length_app. cbn [List.length].
      replace (List.length (tasks svc) + 1)%nat with (S (List.length (tasks svc))) by lia.
      replace (S (List.length (tasks svc)) + 1)%nat
        with (S (S (List.length (tasks svc)))) by lia.
      reflexivity.
Qed.

Lemma stop_three (old : list Task) (a b c : Task) :
  setStarted false (S (S (List.length old)))
    (setStarted false (S (List.length old))
       (setStarted false (List.length old) (old ++ [a; b; c])))
  = (old ++ [ {| cronExpression := cronExpression a; started := false |};
              {| cronExpression := cronExpression b; started := false |};
              {| cronExpression := cronExpression c; started := false |} ])%list.
Proof.
  pose proof (setStarted_app_r false old [a; b; c] 0) as E0.
  rewrite Nat.add_0_r in E0. change (setStarted false 0 [a; b; c])
    with [{| cronExpression := cronExpression a; started := false |}; b; c] in E0.
  rewrite E0.
  pose proof (setStarted_app_r false old
                [{| cronExpression := cronExpression a; started := false |}; b; c] 1) as E1.
  rewrite Nat.add_1_r in E1.
  change (setStarted false 1
            [{| cronExpression := cronExpression a; started := false |}; b; c])
    with [{| cronExpression := cronExpression a; started := false |};
          {| cronExpression := cronExpression b; started := false |}; c] in E1.
  rewrite E1.
  pose proof (setStarted_app_r false old
                [{| cronExpression := cronExpression a; started := false |};
                 {| cronExpression := cronExpression b; started := false |}; c] 2) as E2.
  replace (List.length old + 2)%nat with (S (S (List.length old))) in E2 by lia.
  rewrite E2. reflexivity.
Qed.

Lemma stop_settled svc : settled svc -> settled (stop svc).
Proof.
  unfold settled, stop. destruct (isRunning svc) eqn:Er; cbn [negb].
  - intros [old [Ho [Et Ej]]]. cbn -[setStarted]. split; [reflexivity|].
    rewrite Ej, Et. cbn [fold_left snd]. rewrite stop_three.
    unfold allStopped. apply Forall_app. split; [exact Ho|].
    repeat constructor.
  - intros H. cbn. rewrite Er. exact H.
Qed.

Lemma calls_settled (cs : list Call) svc : settled svc -> settled (fold_left call cs svc).
Proof.
  revert svc. induction cs as [|c cs IH]; intros svc H; [exact H|].
  cbn [fold_left]. apply IH. destruct c; [apply start_settled | apply stop_settled]; exact H.
Qed.

(** X16. After any sequence of [start()] and [stop()] calls on a new
    service: while it runs, the jobs map holds exactly 'main-monitoring',
    'aggregation' and 'cleanup' and the started cron tasks are exactly
    three, with the expressions '*/30 * * * * *', '*/5 * * * *' and
    '0 2 * * *'; while it is stopped the map is empty and no task is
    started. A second [start()] schedules nothing more, and [stop()] after
    [start()] leaves no task running. *)
Theorem service_lifecycle :
  forall cs : list Call,
    let svc := fold_left call cs newService in
    (isRunning svc = true ->
       map fst (monitoringJobs svc) = ["main-monitoring"; "aggregation"; "cleanup"]
       /\ map cronExpression (runningTasks svc)
          = ["*/30 * * * * *"; "*/5 * * * *"; "0 2 * * *"])
    /\ (isRunning svc = false -> monitoringJobs svc = [] /\ runningTasks svc = [])
    /\ runningTasks (start (start svc)) = runningTasks (start svc)
    /\ monitoringJobs (start (start svc)) = monitoringJobs (start svc)
    /\ isRunning (start svc) = true
    /\ isRunning (stop svc) = false
    /\ runningTasks (stop (start svc)) = [].
Proof.
  intros cs svc.
  assert (H : settled svc).
  { apply calls_settled. split; [reflexivity | constructor]. }
  assert (Hrun : forall x, settled x -> isRunning x = true ->
                   map fst (monitoringJobs x) = ["main-monitoring"; "aggregation"; "cleanup"]
                   /\ map cronExpression (runningTasks x)
                      = ["*/30 * * * * *"; "*/5 * * * *"; "0 2 * * *"]).
  { intros x Hx Er. unfold settled in Hx. rewrite Er in Hx.
    destruct Hx as [old [Ho [Et Ej]]]. rewrite Ej. split; [reflexivity|].
    unfold runningTasks. rewrite Et, filter_app, (filter_allStopped old Ho). reflexivity. }
  assert (Hstop : forall x, settled x -> isRunning x = false ->
                    monitoringJobs x = [] /\ runningTasks x = []).
  { intros x Hx Er. unfold settled in Hx. rewrite Er in Hx.
    destruct Hx as [Hj Hs]. split; [exact Hj | apply filter_allStopped; exact Hs]. }
  assert (Es : isRunning (start svc) = true).
  { unfold start. destruct (isRunning svc) eqn:Er; [exact Er | reflexivity]. }
  assert (Ep : forall x, isRunning (stop x) = false).
  { intros x. unfold stop. destruct (isRunning x) eqn:Er; [reflexivity | exact Er]. }
  split; [apply Hrun; exact H|]. split; [apply Hstop; exact H|].
  split; [|split; [|split; [exact Es|split; [apply Ep|]]]].
  - unfold start at 1. rewrite Es. reflexivity.
  - unfold start at 1. rewrite Es. reflexivity.
  - apply Hstop; [apply stop_settled, start_settled; exact H | apply Ep].
Qed.

(** ** Login lock *)

Lemma failedLogins_below_five (times : list Z) (u : UserDoc) :
  lockUntil u = None ->
  0 <= loginAttempts u ->
  loginAttempts u + Z.of_nat (List.length times) < 5 ->
  failedLogins times u
  = set_login (loginAttempts u + Z.of_nat (List.length times)) None u.
Proof.
  revert u. induction times as [|t times IH]; intros u Hl H0 Hk.
  - cbn. rewrite Z.add_0_r. destruct u; cbn in *. subst. reflexivity.
  - cbn [failedLogins fold_left]. fold (failedLogins times).
    assert (E : snd (login t false u) = set_login (loginAttempts u + 1) None u).
    { unfold login, isLocked, incLoginAttempts, isLocked. rewrite Hl. cbn [negb snd].
      cbn [List.length] in Hk.
      replace (loginAttempts u + 1 >=? 5)%Z with false
        by (destruct (Z.geb_spec (loginAttempts u + 1) 5); [lia | reflexivity]).
      reflexivity. }
    rewrite E. cbn [List.length] in *. rewrite IH.
    + unfold set_login. cbn. f_equal. lia.
    + reflexivity.
    + cbn. lia.
    + cbn. lia.
Qed.

(** X17. Five failed logins in a row on an account with no lock and no
    counted attempt lock it for two hours (7200000 ms) from the fifth:
    until then every login is answered as locked and changes nothing, even
    with the right password; from then on the right password logs in and
    clears counter and lock. Fewer than five failures never lock: the right
    password then logs in and leaves the count at 0. *)
Theorem five_failed_logins_lock (times : list Z) (last : Z) (u : UserDoc) :
  lockUntil u = None ->
  loginAttempts u = 0 ->
  List.length times = 4%nat ->
  let u5 := snd (login last false (failedLogins times u)) in
  lockUntil u5 = Some (last + 7200000)
  /\ loginAttempts u5 = 5
  /\ (forall now ok, now < last + 7200000 -> login now ok u5 = (AccountLocked, u5))
  /\ (forall now, last + 7200000 <= now ->
        login now true u5 = (LoggedIn, resetLoginAttempts u5))
  /\ (forall shorter now,
        (List.length shorter < 5)%nat ->
        fst (login now true (failedLogins shorter u)) = LoggedIn
        /\ loginAttempts (snd (login now true (failedLogins shorter u))) = 0
        /\ lockUntil (snd (login now true (failedLogins shorter u))) = None).
Proof.
  intros Hl Ha Hn u5.
  assert (E4 : failedLogins times u = set_login 4 None u).
  { rewrite failedLogins_below_five; rewrite ?Ha, ?Hn; try assumption; try lia.
    reflexivity. }
  assert (E5 : u5 = set_login 5 (Some (last + 7200000)) u).
  { subst u5. rewrite E4. reflexivity. }
  rewrite E5. split; [reflexivity|]. split; [reflexivity|]. split; [|split].
  - intros now ok Hnow. unfold login, isLocked. cbn [lockUntil set_login].
    replace (last + 7200000 >? now)%Z with true
      by (destruct (Z.gtb_spec (last + 7200000) now); [reflexivity | lia]).
    reflexivity.
  - intros now Hnow. unfold login, isLocked. cbn [lockUntil set_login loginAttempts].
    replace (last + 7200000 >? now)%Z with false
      by (destruct (Z.gtb_spec (last + 7200000) now); [lia | reflexivity]).
    reflexivity.
  - intros shorter now Hs.
    rewrite failedLogins_below_five; rewrite ?Ha; try assumption; try lia.
    unfold login, isLocked. cbn [lockUntil set_login loginAttempts negb].
    destruct (Z.gtb_spec (0 + Z.of_nat (List.length shorter)) 0) as [Hpos|Hzero];
      cbn [fst snd resetLoginAttempts set_login loginAttempts lockUntil].
    + repeat split.
    + repeat split. lia.
Qed.

Lemma five_failed_logins_lock_witness :
  let u := {| subscriptionTier := "free"; appsDeployed := 0; serverlessFunctions := 0;
              loginAttempts := 0; lockUntil := None |} in
  let u5 := snd (login 5000 false (failedLogins [1000; 2000; 3000; 4000] u)) in
  lockUntil u5 = Some (5000 + 7200000)
  /\ loginAttempts u5 = 5
  /\ (forall now ok, now < 5000 + 7200000 -> login now ok u5 = (AccountLocked, u5))
  /\ (forall now, 5000 + 7200000 <= now ->
        login now true u5 = (LoggedIn, resetLoginAttempts u5))
  /\ (forall shorter now,
        (List.length shorter < 5)%nat ->
        fst (login now true (failedLogins shorter u)) = LoggedIn
        /\ loginAttempts (snd (login now true (failedLogins shorter u))) = 0
        /\ lockUntil (snd (login now true (failedLogins shorter u))) = None).
Proof.
  apply (five_failed_logins_lock [1000; 2000; 3000; 4000] 5000
           {| subscriptionTier := "free"; appsDeployed := 0; serverlessFunctions := 0;
              loginAttempts := 0; lockUntil := None |});
    reflexivity.
Defined.

(** X18. [incLoginAttempts] on a document that carries a lock: when the
    lock has run out the count restarts at 1 and the lock is removed; while
    it holds the attempt is counted and the lock keeps its end; at the very
    millisecond the lock ends, an account with four or more attempts is
    locked anew for two hours. *)
Theorem expired_lock_restarts_count (now t : Z) (u : UserDoc) :
  lockUntil u = Some t ->
  (t < now ->
     incLoginAttempts now u = set_login 1 None u
     /\ login now false u = (InvalidCredentials, set_login 1 None u))
  /\ (now < t ->
      lockUntil (incLoginAttempts now u) = Some t
      /\ loginAttempts (incLoginAttempts now u) = loginAttempts u + 1)
  /\ (t = now -> 4 <= loginAttempts u ->
      lockUntil (incLoginAttempts now u) = Some (now + 7200000)).
Proof.
  intros Hl. unfold login, incLoginAttempts, isLocked. rewrite Hl.
  split; [|split].
  - intros H. destruct (Z.ltb_spec t now); [|lia].
    destruct (Z.gtb_spec t now); [lia|]. split; reflexivity.
  - intros H. destruct (Z.ltb_spec t now); [lia|].
    destruct (Z.gtb_spec t now); [|lia]. rewrite andb_false_r. split; reflexivity.
  - intros -> H. rewrite Z.ltb_irrefl.
    destruct (Z.gtb_spec now now); [lia|].
    destruct (Z.geb_spec (loginAttempts u + 1) 5); [reflexivity | lia].
Qed.

Lemma expired_lock_restarts_count_witness :
  let u := {| subscriptionTier := "pro"; appsDeployed := 2; serverlessFunctions := 0;
              loginAttempts := 5; lockUntil := Some 9000 |} in
  (9000 < 9500 ->
     incLoginAttempts 9500 u = set_login 1 None u
     /\ login 9500 false u = (InvalidCredentials, set_login 1 None u))
  /\ (9500 < 9000 ->
      lockUntil (incLoginAttempts 9500 u) = Some 9000
      /\ loginAttempts (incLoginAttempts 9500 u) = loginAttempts u + 1)
  /\ (9000 = 9500 -> 4 <= loginAttempts u ->
      lockUntil (incLoginAttempts 9500 u) = Some (9500 + 7200000)).
Proof.
  apply (expired_lock_restarts_count 9500 9000
           {| subscriptionTier := "pro"; appsDeployed := 2; serverlessFunctions := 0;
              loginAttempts := 5; lockUntil := Some 9000 |}).
  reflexivity.
Defined.

(** ** Usage limits *)

(** X19. [checkUsageLimits] lets a request through on 'pro' whenever it
    does on 'free', and always on 'enterprise'. A 'free' account may deploy
    while it has fewer than 1 application and create functions while it has
    fewer than 3; a 'pro' account fewer than 5 and 25. Under any other tier
    name [canDeployApp] and [canCreateFunction] are false, whatever the
    usage. *)
Theorem usage_limits_grow_with_tier :
  forall (u : UserDoc) (resource : string),
    let free := set_subscriptionTier "free" u in
    let pro := set_subscriptionTier "pro" u in
    let enterprise := set_subscriptionTier "enterprise" u in
    (checkUsageLimits resource free = true -> checkUsageLimits resource pro = true)
    /\ (checkUsageLimits resource pro = true -> checkUsageLimits resource enterprise = true)
    /\ checkUsageLimits resource enterprise = true
    /\ (canDeployApp free = true <-> appsDeployed u < 1)
    /\ (canDeployApp pro = true <-> appsDeployed u < 5)
    /\ (canCreateFunction free = true <-> serverlessFunctions u < 3)
    /\ (canCreateFunction pro = true <-> serverlessFunctions u < 25)
    /\ (subscriptionTier u <> "free" -> subscriptionTier u <> "pro" ->
        subscriptionTier u <> "enterprise" ->
        canDeployApp u = false /\ canCreateFunction u = false).
Proof.
  intros u resource free pro enterprise. subst free pro enterprise.
  unfold checkUsageLimits, canDeployApp, canCreateFunction, appLimit, functionLimit, below.
  cbn [subscriptionTier set_subscriptionTier appsDeployed serverlessFunctions
       String.eqb Ascii.eqb Bool.eqb].
  rewrite !Z.ltb_lt.
  split; [|split; [|split; [|split; [|split; [|split; [|split]]]]]]; try tauto.
  - destruct (resource =? "apps"); [lia|]. destruct (resource =? "functions"); [lia|]. tauto.
  - destruct (resource =? "apps"); [tauto|]. destruct (resource =? "functions"); tauto.
  - destruct (resource =? "apps"); [reflexivity|].
    destruct (resource =? "functions"); reflexivity.
  - intros H1 H2 H3. apply String.eqb_neq in H1, H2, H3. rewrite H1, H2, H3.
    split; reflexivity.
Qed.

(** ** Statistics *)

Lemma filter_narrower_length {A} (p q : A -> bool) (l : list A) :
  (forall x, p x = true -> q x = true) ->
  (List.length (filter p l) <= List.length (filter q l))%nat.
Proof.
  intros Hpq. induction l as [|x l IH]; [apply Nat.le_refl|].
  cbn [filter]. destruct (p x) eqn:Px.
  - rewrite (Hpq x Px). cbn [List.length]. lia.
  - destruct (q x); cbn [List.length]; lia.
Qed.

Lemma deployedWith_total st a : deployedWith (Some st) a = true -> deployedWith None a = true.
Proof.
  unfold deployedWith. intros H. apply andb_true_iff in H. destruct H as [H _].
  rewrite H. reflexivity.
Qed.

Lemma deployedWith_status st a : deployedWith (Some st) a = true -> healthStatus a = st.
Proof.
  unfold deployedWith. intros H. apply andb_true_iff in H. destruct H as [_ H].
  apply String.eqb_eq. exact H.
Qed.

(** The three status counts are counts of disjoint parts of the total. *)
Lemma status_counts_sum (db : list App) :
  (List.length (filter (deployedWith (Some "up")) db)
   + List.length (filter (deployedWith (Some "down")) db)
   + List.length (filter (deployedWith (Some "warning")) db)
   <= List.length (filter (deployedWith None) db))%nat.
Proof.
  induction db as [|a db IH]; [apply Nat.le_refl|].
  cbn [filter].
  pose proof (deployedWith_total "up" a) as Tu.
  pose proof (deployedWith_total "down" a) as Td.
  pose proof (deployedWith_total "warning" a) as Tw.
  pose proof (deployedWith_status "up" a) as Su.
  pose proof (deployedWith_status "down" a) as Sd.
  pose proof (deployedWith_status "warning" a) as Sw.
  destruct (deployedWith (Some "up") a), (deployedWith (Some "down") a),
    (deployedWith (Some "warning") a), (deployedWith None a);
    cbn [List.length];
    try lia;
    try (specialize (Tu eq_refl); discriminate);
    try (specialize (Td eq_refl); discriminate);
    try (specialize (Tw eq_refl); discriminate);
    try (specialize (Su eq_refl); specialize (Sd eq_refl); congruence);
    try (specialize (Su eq_refl); specialize (Sw eq_refl); congruence);
    try (specialize (Sd eq_refl); specialize (Sw eq_refl); congruence).
Qed.

Lemma percentage_nonneg (k n : Z) :
  0 <= k -> 0 < n -> (0 <= inject_Z k / inject_Z n * 100)%Q.
Proof.
  intros Hk Hn. destruct n as [|p|p]; try lia.
  unfold Qle, Qdiv, Qmult, Qinv, inject_Z; cbn. nia.
Qed.

Lemma avgResponseTime_nonneg (db : list App) :
  match avgResponseTime db with
  | Some q => (0 <= q)%Q
  | None => True
  end.
Proof.
  unfold avgResponseTime. cbv zeta.
  set (matched := filter _ db).
  assert (Hm : Forall (fun a => 0 < current (responseTime (monitoring a))) matched).
  { apply Forall_forall. intros a Ha. apply filter_In in Ha. destruct Ha as [_ Ha].
    apply andb_true_iff in Ha. destruct Ha as [_ Ha]. apply Z.gtb_lt in Ha. lia. }
  assert (Hs : 0 <= fold_right (fun a acc => current (responseTime (monitoring a)) + acc)
                      0 matched).
  { induction Hm as [|a l Ha _ IH]; cbn; lia. }
  destruct matched as [|a l]; [exact I|].
  apply Qle_shift_div_l.
  - change 0%Q with (inject_Z 0). rewrite <- Zlt_Qlt. cbn [List.length]. lia.
  - rewrite Qmult_0_l. change 0%Q with (inject_Z 0). rewrite <- Zle_Qle. exact Hs.
Qed.

(** X20. Whatever is written between the five queries of
    [getMonitoringStats], its counts and its uptime percentage are not
    negative, the percentage is 100 when the first query finds no active
    deployed application, and the average response time is not negative.
    When nothing is written between the queries, up + down + warning does
    not exceed the total, the percentage is at most 100, and it is 100 when
    every application is up. *)
Theorem monitoring_stats_bounds :
  forall reads : StatsReads,
    let stats := getMonitoringStats reads in
    0 <= totalApps stats /\ 0 <= upApps stats
    /\ 0 <= downApps stats /\ 0 <= warningApps stats
    /\ (0 <= statsUptimePercentage stats)%Q
    /\ (totalApps stats = 0 -> (statsUptimePercentage stats == 100)%Q)
    /\ (0 <= averageResponseTime stats)%Q
    /\ (forall db, reads = steady db ->
          upApps stats + downApps stats + warningApps stats <= totalApps stats
          /\ (statsUptimePercentage stats <= 100)%Q
          /\ (0 < totalApps stats -> upApps stats = totalApps stats ->
              (statsUptimePercentage stats == 100)%Q)).
Proof.
  intros reads stats. subst stats. unfold getMonitoringStats. cbv zeta.
  cbn [statsUptimePercentage upApps downApps warningApps totalApps averageResponseTime].
  unfold countDocuments.
  split; [lia|]. split; [lia|]. split; [lia|]. split; [lia|].
  split; [|split; [|split]].
  - destruct (Z.gtb_spec (Z.of_nat (List.length (filter (deployedWith None) (atTotal reads)))) 0)
      as [Hpos|Hzero].
    + apply percentage_nonneg; lia.
    + discriminate.
  - intros H0. rewrite H0. reflexivity.
  - pose proof (avgResponseTime_nonneg (atAverage reads)) as Ha.
    destruct (avgResponseTime (atAverage reads)) as [q|]; [|discriminate].
    destruct (Qeq_bool q 0); [discriminate | exact Ha].
  - intros db ->. cbn [steady atTotal atUp atDown atWarning].
    pose proof (filter_narrower_length (deployedWith (Some "up")) (deployedWith None) db
                  (deployedWith_total "up")) as Hup.
    pose proof (status_counts_sum db) as Hsum.
    split; [lia|]. split.
    + destruct (Z.gtb_spec (Z.of_nat (List.length (filter (deployedWith None) db))) 0)
        as [Hpos|Hzero].
      * apply percentage_bounds; lia.
      * discriminate.
    + intros Hpos Heq. rewrite Heq.
      destruct (Z.gtb_spec (Z.of_nat (List.length (filter (deployedWith None) db))) 0);
        [|lia].
      destruct (Z.of_nat (List.length (filter (deployedWith None) db))) as [|p|p];
        try lia.
      unfold Qeq, Qdiv, Qmult, Qinv, inject_Z; cbn. lia.
Qed.

(** One target, up when the first two queries run and found down by the
    third, after a second target was deployed between the first and the
    second query: it is counted as up and as down, and the percentage is
    200. *)
Example stats_between_writes :
  let second := withId "app_2" upApp in
  let stats := getMonitoringStats
                 {| atTotal := [upApp]; atUp := [upApp; second];
                    atDown := [set_healthStatus "down" upApp; second];
                    atWarning := [set_healthStatus "down" upApp; second];
                    atAverage := [set_healthStatus "down" upApp; second] |} in
  totalApps stats = 1 /\ upApps stats = 2 /\ downApps stats = 1
  /\ (statsUptimePercentage stats == 200)%Q.
Proof. vm_compute. repeat split; reflexivity. Qed.

(** The same two targets with nothing written in between. *)
Example stats_steady :
  let stats := getMonitoringStats (steady [upApp; withId "app_2" downApp]) in
  totalApps stats = 2 /\ upApps stats = 1 /\ downApps stats = 1
  /\ warningApps stats = 0
  /\ (statsUptimePercentage stats == 50)%Q
  /\ (averageResponseTime stats == 80)%Q.
Proof. vm_compute. repeat split; reflexivity. Qed.

(** ** Serialisation *)

(** X21. The [toJSON] transform keeps the keys and the [encrypted] flags of
    the environment variables, in order; it shows '[ENCRYPTED]' in place of
    the value of every encrypted variable and the value itself of the
    others, so no entry of the output flagged encrypted carries anything
    else; transforming twice is transforming once. *)
Theorem toJSON_hides_encrypted_values :
  forall envs : list EnvVar,
    let shown := maskEnvironment envs in
    map key shown = map key envs
    /\ map encrypted shown = map encrypted envs
    /\ Forall2 (fun env out =>
                  value out = if encrypted env then "[ENCRYPTED]" else value env)
         envs shown
    /\ (forall out, In out shown -> encrypted out = true -> value out = "[ENCRYPTED]")
    /\ maskEnvironment shown = shown.
Proof.
  intros envs shown. subst shown. unfold maskEnvironment.
  split; [|split; [|split; [|split]]].
  - rewrite map_map. reflexivity.
  - rewrite map_map. reflexivity.
  - induction envs as [|e envs IH]; constructor; [reflexivity | exact IH].
  - intros out Hin He. apply in_map_iff in Hin. destruct Hin as [env [<- _]].
    cbn in *. rewrite He. reflexivity.
  - rewrite map_map. apply map_ext. intros env. cbn. destruct (encrypted env); reflexivity.
Qed.

(** ** Configuration *)

(** X22. The configuration route keeps [timeout] within 5..300 and
    [healthCheckInterval] within 10..3600 whatever integers the body
    carries, given that they were so before; the probe's timeout is then
    [timeout] * 1000 ms, between 5 and 300 seconds, and not the 30000 ms
    fallback. A [timeout] of 0 in the body is ignored. The route leaves
    [maxRestartAttempts], the counters, the incidents and [healthStatus]
    as they were. *)
Theorem applyConfig_keeps_bounds (body : ConfigBody) (a : App) :
  5 <= timeout (configuration a) <= 300 ->
  10 <= healthCheckInterval (configuration a) <= 3600 ->
  let a' := applyConfig body a in
  5 <= timeout (configuration a') <= 300
  /\ 10 <= healthCheckInterval (configuration a') <= 3600
  /\ timeoutOf a' = timeout (configuration a') * 1000
  /\ 5000 <= timeoutOf a' <= 300000
  /\ (bodyTimeout body = Some 0 -> timeout (configuration a') = timeout (configuration a))
  /\ maxRestartAttempts (configuration a') = maxRestartAttempts (configuration a)
  /\ failures a' = failures a /\ checks a' = checks a
  /\ appIncidents a' = appIncidents a
  /\ healthStatus a' = healthStatus a.
Proof.
  intros Ht Hi a'. subst a'. unfold applyConfig. cbv zeta.
  assert (Hc : configuration
                 match bodyMonitoringEnabled body with
                 | Some b => set_monitoringEnabled b a
                 | None => a
                 end = configuration a)
    by (destruct (bodyMonitoringEnabled body); reflexivity).
  assert (Hm : monitoring
                 match bodyMonitoringEnabled body with
                 | Some b => set_monitoringEnabled b a
                 | None => a
                 end = monitoring a)
    by (destruct (bodyMonitoringEnabled body); reflexivity).
  assert (Hh : healthStatus
                 match bodyMonitoringEnabled body with
                 | Some b => set_monitoringEnabled b a
                 | None => a
                 end = healthStatus a)
    by (destruct (bodyMonitoringEnabled body); reflexivity).
  unfold timeoutOf, failures, checks, appIncidents.
  cbn [configuration set_configuration timeout healthCheckInterval maxRestartAttempts
       monitoring healthStatus].
  rewrite Hc, Hm, Hh.
  assert (Htm : 5 <= match truthyNumber (bodyTimeout body) with
                     | Some n => Z.max 5 (Z.min 300 n)
                     | None => timeout (configuration a)
                     end <= 300)
    by (destruct (truthyNumber (bodyTimeout body)); lia).
  assert (Hiv : 10 <= match truthyNumber (bodyHealthCheckInterval body) with
                      | Some n => Z.max 10 (Z.min 3600 n)
                      | None => healthCheckInterval (configuration a)
                      end <= 3600)
    by (destruct (truthyNumber (bodyHealthCheckInterval body)); lia).
  split; [exact Htm|]. split; [exact Hiv|].
  destruct (Z.eqb_spec (match truthyNumber (bodyTimeout body) with
                        | Some n => Z.max 5 (Z.min 300 n)
                        | None => timeout (configuration a)
                        end * 1000) 0) as [E|E]; [lia|].
  split; [reflexivity|]. split; [lia|]. split; [|repeat split].
  intros ->. reflexivity.
Qed.

Lemma applyConfig_keeps_bounds_witness :
  let body := {| bodyMonitoringEnabled := Some false;
                 bodyHealthCheckInterval := Some 5;
                 bodyHealthCheckPath := Some "/health";
                 bodyTimeout := Some 100000;
                 bodyAutoRestart := None |} in
  let a' := applyConfig body deployedApp in
  5 <= timeout (configuration a') <= 300
  /\ 10 <= healthCheckInterval (configuration a') <= 3600
  /\ timeoutOf a' = timeout (configuration a') * 1000
  /\ 5000 <= timeoutOf a' <= 300000
  /\ (bodyTimeout body = Some 0 ->
      timeout (configuration a') = timeout (configuration deployedApp))
  /\ maxRestartAttempts (configuration a') = maxRestartAttempts (configuration deployedApp)
  /\ failures a' = failures deployedApp /\ checks a' = checks deployedApp
  /\ appIncidents a' = appIncidents deployedApp
  /\ healthStatus a' = healthStatus deployedApp.
Proof.
  apply (applyConfig_keeps_bounds
           {| bodyMonitoringEnabled := Some false;
              bodyHealthCheckInterval := Some 5;
              bodyHealthCheckPath := Some "/health";
              bodyTimeout := Some 100000;
              bodyAutoRestart := None |} deployedApp);
    cbn; lia.
Defined.

(** ** The aggregated estimate and the [uptimeStatus] virtual *)

(** X23. On a record to which the aggregation job has written its estimate
    (the failure count not being negative), the [uptimeStatus] virtual says
    'excellent' with no consecutive failure, 'fair' with one or two, 'poor'
    from three on, and never 'good'. *)
Theorem aggregated_uptimeStatus (a : App) :
  0 <= failures a ->
  let a' := withEstimate a in
  (failures a = 0 -> uptimeStatus a' = "excellent")
  /\ (1 <= failures a <= 2 -> uptimeStatus a' = "fair")
  /\ (3 <= failures a -> uptimeStatus a' = "poor")
  /\ uptimeStatus a' <> "good".
Proof.
  intros H0 a'. subst a'.
  assert (E : uptime (withEstimate a) = inject_Z (Z.max 0 (100 - failures a * 2)))
    by reflexivity.
  assert (H1 : failures a = 0 -> uptimeStatus (withEstimate a) = "excellent").
  { intros Hf. apply uptimeStatus_excellent. rewrite E, Hf. reflexivity. }
  assert (H2 : 1 <= failures a <= 2 -> uptimeStatus (withEstimate a) = "fair").
  { intros Hf. unfold uptimeStatus. fold (uptime (withEstimate a)). rewrite E.
    assert (Hc : failures a = 1 \/ failures a = 2) by lia.
    destruct Hc as [-> | ->]; reflexivity. }
  assert (H3 : 3 <= failures a -> uptimeStatus (withEstimate a) = "poor").
  { intros Hf. apply uptimeStatus_poor. rewrite E.
    change 95%Q with (inject_Z 95). rewrite <- Zlt_Qlt. lia. }
  split; [exact H1|]. split; [exact H2|]. split; [exact H3|].
  destruct (Z.eq_dec (failures a) 0) as [Hz|Hz]; [rewrite (H1 Hz); discriminate|].
  destruct (Z.le_gt_cases (failures a) 2) as [Hle|Hgt].
  - rewrite H2 by lia. discriminate.
  - rewrite H3 by lia. discriminate.
Qed.

Lemma aggregated_uptimeStatus_witness :
  let a' := withEstimate downApp in
  (failures downApp = 0 -> uptimeStatus a' = "excellent")
  /\ (1 <= failures downApp <= 2 -> uptimeStatus a' = "fair")
  /\ (3 <= failures downApp -> uptimeStatus a' = "poor")
  /\ uptimeStatus a' <> "good".
Proof. apply (aggregated_uptimeStatus downApp). discriminate. Defined.

(** ** The manual check *)

Lemma findOne_split query db before found after :
  findOne query db = Some (before, found, after) ->
  db = (before ++ found :: after)%list
  /\ query found = true
  /\ Forall (fun a => query a = false) before.
Proof.
  revert before. induction db as [|a db IH]; intros before H; cbn in H; [discriminate|].
  destruct (query a) eqn:Q.
  - injection H as <- <- <-. repeat split; [exact Q | constructor].
  - destruct (findOne query db) as [[[b x] r]|]; [|discriminate].
    injection H as <- <- <-. destruct (IH b eq_refl) as [E [Hq Hb]].
    rewrite E. repeat split; [exact Hq | constructor; assumption].
Qed.

Lemma findOne_none query db :
  findOne query db = None <-> Forall (fun a => query a = false) db.
Proof.
  induction db as [|a db IH]; cbn.
  - split; [constructor | reflexivity].
  - destruct (query a) eqn:Q.
    + split; [discriminate | intros H; inversion H; congruence].
    + destruct (findOne query db) as [[[b x] r]|].
      * split; [discriminate|]. intros H. inversion H as [|? ? _ H']. apply IH in H'.
        discriminate.
      * split; [|reflexivity]. intros _. constructor; [exact Q | apply IH; reflexivity].
Qed.

(** A rejected save of the update ends the check with that error before
    anything is stored. *)
Lemma checkAppHealth_save_rejected net lookup a w :
  hasUrl a = true ->
  hd false (rejects w) = true ->
  result (checkAppHealth net lookup) (load a w) = Throw saveError
  /\ stored (checkCycle net lookup a w) = a.
Proof.
  intros Hu Hr.
  destruct (probe_effect net (clock w) (load a w)) as [o [s1 [E [Hd [Hs [Hrej Ho]]]]]].
  cbn [load doc stored world] in *.
  destruct o as [p|]; [|rewrite (proj1 Ho eq_refl) in Hu; discriminate].
  assert (E2 : updateHealthStatus (probeStatus p) (Some (probeResponseTime p)) s1
               = (Throw saveError,
                  set_world (set_rejects (tl (rejects (world s1))) (world s1))
                    (set_doc (observed (probeStatus p) (Some (probeResponseTime p))
                                (clock (world s1)) (doc s1)) s1))).
  { rewrite updateHealthStatus_observed. unfold save. cbn [set_doc world doc].
    rewrite Hrej. destruct (rejects w) as [|[|] r]; [discriminate | reflexivity | discriminate]. }
  assert (Ec : checkAppHealth net lookup (load a w)
               = (Throw saveError,
                  set_world (set_rejects (tl (rejects (world s1))) (world s1))
                    (set_doc (observed (probeStatus p) (Some (probeResponseTime p))
                                (clock (world s1)) (doc s1)) s1))).
  { unfold checkAppHealth.
    unfold bind at 1. cbn [Date_now load world].
    unfold bind at 1. rewrite E. cbv zeta.
    unfold bind at 1. rewrite E2. reflexivity. }
  unfold checkCycle, exec, result. rewrite Ec. cbn [fst snd stored set_world set_doc].
  split; [reflexivity | exact Hs].
Qed.

Lemma findOne_found query before found after :
  Forall (fun a => query a = false) before ->
  query found = true ->
  findOne query (before ++ found :: after) = Some (before, found, after).
Proof.
  intros Hb Hf. induction Hb as [|a before Ha _ IH]; cbn.
  - rewrite Hf. reflexivity.
  - rewrite Ha, IH. reflexivity.
Qed.

Lemma performManualCheck_found net users id before a after w :
  (forall b, In b before -> appId b = id -> isActive b = false) ->
  appId a = id -> isActive a = true ->
  snd (fst (performManualCheck net users id (before ++ a :: after) w))
  = (before ++ stored (checkCycle net (users (userId a)) a w) :: after)%list
  /\ fst (fst (performManualCheck net users id (before ++ a :: after) w))
     = match result (checkAppHealth net (users (userId a))) (load a w) with
       | Ok _ => Ok (doc (checkCycle net (users (userId a)) a w))
       | Throw e => Throw e
       end.
Proof.
  intros Hb Hid Hact. unfold performManualCheck. cbv zeta.
  rewrite findOne_found.
  - unfold checkCycle, exec, result.
    destruct (checkAppHealth net (users (userId a)) (load a w)) as [[u|e] s];
      split; reflexivity.
  - apply Forall_forall. intros b Hin. apply andb_false_iff.
    destruct (String.eqb_spec (appId b) id) as [E|E]; [|left; reflexivity].
    right. apply Hb; assumption.
  - rewrite Hid, String.eqb_refl, Hact. reflexivity.
Qed.

(** X24. [performManualCheck]: with no active document under the [appId] it
    throws 'App not found' and the database is unchanged. Otherwise the
    first such document is checked and replaced in the database by what its
    check cycle stored, the others staying in place. Unlike a timed tick it
    rethrows: when the save of the update rejects, the caller gets that
    error and the database is unchanged. A document without URL is returned
    as it is. *)
Theorem performManualCheck_errors (net : Network) (users : string -> Lookup)
    (id : string) (db : list App) (w : World) :
  let res := fst (fst (performManualCheck net users id db w)) in
  let db' := snd (fst (performManualCheck net users id db w)) in
  ((forall a, In a db -> appId a = id -> isActive a = false) ->
   res = Throw appNotFound /\ db' = db)
  /\ (forall before a after,
        db = (before ++ a :: after)%list ->
        (forall b, In b before -> appId b = id -> isActive b = false) ->
        appId a = id -> isActive a = true ->
        db' = (before ++ stored (checkCycle net (users (userId a)) a w) :: after)%list
        /\ (hasUrl a = true -> hd false (rejects w) = true ->
            res = Throw saveError /\ db' = db)
        /\ (hasUrl a = false -> res = Ok a /\ db' = db)).
Proof.
  cbv zeta. split.
  - intros Hnone. unfold performManualCheck. cbv zeta.
    replace (findOne (fun a => (appId a =? id) && isActive a) db) with
      (@None (list App * App * list App)); [split; reflexivity|].
    symmetry. apply findOne_none. apply Forall_forall. intros a Hin.
    apply andb_false_iff.
    destruct (String.eqb_spec (appId a) id) as [E|E]; [|left; reflexivity].
    right. apply Hnone; assumption.
  - intros before a after -> Hb Hid Hact.
    destruct (performManualCheck_found net users id before a after w Hb Hid Hact)
      as [Edb Eres].
    split; [exact Edb|]. split.
    + intros Hu Hr.
      destruct (checkAppHealth_save_rejected net (users (userId a)) a w Hu Hr) as [Er Es].
      rewrite Eres, Er, Edb, Es. split; reflexivity.
    + intros Hu.
      pose proof (checkAppHealth_no_url net (users (userId a)) a w Hu) as En.
      rewrite Eres, Edb. unfold checkCycle, exec, result. rewrite En.
      split; reflexivity.
Qed.

(** A manual check whose save is rejected, and one under an unknown id. *)
Example manual_check_rethrows :
  let w := set_rejects [true] (calm 100000) in
  let run id := performManualCheck (answers 80 200) (fun _ => UserFound) id [deployedApp] w in
  fst (fst (run "app_1")) = Throw saveError
  /\ snd (fst (run "app_1")) = [deployedApp]
  /\ fst (fst (run "app_2")) = Throw appNotFound
  /\ snd (fst (run "app_2")) = [deployedApp].
Proof. vm_compute. repeat split; reflexivity. Qed.

(** ** The URL of the probe *)

Lemma append_assoc (x y z : string) : (x ++ y) ++ z = x ++ (y ++ z).
Proof. induction x as [|c x IH]; cbn; [reflexivity | rewrite IH; reflexivity]. Qed.

Lemma endsWithSlash_append (b : string) : endsWithSlash (b ++ "/") = true.
Proof.
  induction b as [|c b IH]; [reflexivity|].
  cbn [append endsWithSlash]. destruct (b ++ "/") eqn:E.
  - destruct b; discriminate.
  - exact IH.
Qed.

Lemma truthy_append_slash (b : string) : truthy (Some (b ++ "/")) = true.
Proof. destruct b; reflexivity. Qed.

(** X25. The URL the probe requests. With a deployment URL that does not
    end in a slash it is the URL followed by the health check path; with a
    trailing slash on the URL the first character of the path is dropped,
    so for a path that starts with '/' both spellings give the same
    address. A custom domain takes precedence over the deployment URL and
    is requested over https. A document with such a URL or domain has
    something to probe; one where both are absent, or both empty, has
    not. *)
Theorem check_url_join (a : App) (b rest : string) (c : ascii) :
  b <> "" ->
  endsWithSlash b = false ->
  healthCheckPath (configuration a) = String c rest ->
  let plain := set_deployment {| url := Some b; customDomain := None |} a in
  let slashed := set_deployment {| url := Some (b ++ "/"); customDomain := None |} a in
  let custom := set_deployment {| url := Some "http://ignored/"; customDomain := Some b |} a in
  checkUrlOf plain = b ++ String c rest
  /\ checkUrlOf slashed = b ++ "/" ++ rest
  /\ checkUrlOf custom = "https://" ++ b ++ String c rest
  /\ (c = "/"%char -> checkUrlOf slashed = checkUrlOf plain)
  /\ hasUrl plain = true /\ hasUrl slashed = true /\ hasUrl custom = true
  /\ hasUrl (set_deployment {| url := None; customDomain := None |} a) = false
  /\ hasUrl (set_deployment {| url := Some ""; customDomain := Some "" |} a) = false.
Proof.
  intros Hb Hs Hp plain slashed custom. subst plain slashed custom.
  assert (Nb : (b =? "") = false) by (apply String.eqb_neq; exact Hb).
  assert (Ns : (b ++ "/" =? "") = false) by (destruct b; reflexivity).
  assert (Nh : ("https://" ++ b =? "") = false) by reflexivity.
  assert (Es : endsWithSlash ("https://" ++ b) = false).
  { cbn. destruct b as [|c0 b']; [contradiction|]. exact Hs. }
  assert (E1 : checkUrlOf (set_deployment {| url := Some b; customDomain := None |} a)
               = b ++ String c rest).
  { unfold checkUrlOf, fullUrl, orElse, truthy, orDefault.
    cbn [deployment set_deployment url customDomain configuration set_configuration].
    rewrite !Nb. cbn [negb]. rewrite Nb, Hp, Hs. reflexivity. }
  assert (E2 : checkUrlOf (set_deployment {| url := Some (b ++ "/"); customDomain := None |} a)
               = b ++ "/" ++ rest).
  { unfold checkUrlOf, fullUrl, orElse, truthy, orDefault.
    cbn [deployment set_deployment url customDomain configuration].
    rewrite !Ns. cbn [negb]. rewrite Ns, Hp, endsWithSlash_append.
    cbn [slice1 String.eqb]. apply append_assoc. }
  split; [exact E1|]. split; [exact E2|]. split; [|split; [|repeat split]].
  - unfold checkUrlOf, fullUrl, orElse, truthy, orDefault.
    cbn [deployment set_deployment url customDomain configuration option_map].
    rewrite !Nb. cbn [negb]. rewrite !Nh. cbn [negb]. rewrite Nh, Hp, Es.
    cbn [String.eqb]. apply append_assoc.
  - intros ->. rewrite E1, E2. reflexivity.
  - unfold hasUrl, fullUrl, orElse, truthy.
    cbn [deployment set_deployment url customDomain]. rewrite !Nb. cbn [negb].
    rewrite Nb. reflexivity.
  - unfold hasUrl, fullUrl, orElse, truthy.
    cbn [deployment set_deployment url customDomain]. rewrite !Ns. cbn [negb].
    rewrite Ns. reflexivity.
  - unfold hasUrl, fullUrl, orElse, truthy.
    cbn [deployment set_deployment url customDomain option_map]. rewrite !Nb.
    cbn [negb]. reflexivity.
Qed.

Lemma check_url_join_witness :
  let a := deployedApp in
  let b := "https://shop.example.com" in
  let plain := set_deployment {| url := Some b; customDomain := None |} a in
  let slashed := set_deployment {| url := Some (b ++ "/"); customDomain := None |} a in
  let custom := set_deployment {| url := Some "http://ignored/"; customDomain := Some b |} a in
  checkUrlOf plain = b ++ "/"
  /\ checkUrlOf slashed = b ++ "/" ++ ""
  /\ checkUrlOf custom = "https://" ++ b ++ "/"
  /\ ("/"%char = "/"%char -> checkUrlOf slashed = checkUrlOf plain)
  /\ hasUrl plain = true /\ hasUrl slashed = true /\ hasUrl custom = true
  /\ hasUrl (set_deployment {| url := None; customDomain := None |} a) = false
  /\ hasUrl (set_deployment {| url := Some ""; customDomain := Some "" |} a) = false.
Proof.
  apply (check_url_join deployedApp "https://shop.example.com" "" "/"%char);
    [discriminate | reflexivity | reflexivity].
Defined.

(** ** A check cycle that restarts *)

Lemma bothAre_world d s w : bothAre d s -> bothAre d (set_world w s).
Proof. intros H. exact H. Qed.

Lemma bothAre_emitHealthUpdate d : preserves (bothAre d) emitHealthUpdate.
Proof.
  unfold emitHealthUpdate.
  apply preserves_bind; [apply preserves_getWorld|]. intros w.
  destruct (negb (io w)); [apply preserves_ret|].
  apply preserves_bind; [apply preserves_getDoc|]. intros app.
  apply (preserves_emit _ (bothAre_world d)).
Qed.

Lemma attemptAutoRestart_restarts (s : State) :
  hd false (rejects (world s)) = false ->
  hd false (tl (rejects (world s))) = false ->
  let s1 := exec attemptAutoRestart s in
  stored s1 = doc s1
  /\ healthStatus (doc s1) = "up"
  /\ failures (doc s1) = 0
  /\ checks (doc s1) = checks (doc s)
  /\ uptime (doc s1) = uptime (doc s)
  /\ appIncidents (doc s1) = appIncidents (doc s)
  /\ lastCheck (doc s1) = clock (world s) + 2000
  /\ rejects (world s1) = tl (tl (rejects (world s))).
Proof.
  destruct s as [d st [i c r en tr]].
  destruct r as [|[|] [|[|] r]]; destruct i; cbn; intros H1 H2;
    try discriminate; repeat split; reflexivity.
Qed.

(** X26. A check cycle that observes 'down' on a target with [autoRestart]
    set and at least two consecutive failures so far, and whose three saves
    resolve, attempts one restart and stores the record as 'up' with
    [consecutiveFailures] 0 and [lastCheck] 2000 ms after the probe. The
    observation is counted ([checksPerformed] grows by one and the uptime
    percentage is computed with the failure in), but the stored status does
    not show it; in memory and stored the record is the same, and the
    incidents are untouched. *)
Theorem restarted_cycle_reports_up net lookup a w p :
  result (probe net (clock w)) (load a w) = Ok (Some p) ->
  probeStatus p = "down" ->
  autoRestart (configuration a) = true ->
  2 <= failures a ->
  hd false (rejects w) = false ->
  hd false (tl (rejects w)) = false ->
  hd false (tl (tl (rejects w))) = false ->
  let probed := clock (world (exec (probe net (clock w)) (load a w))) in
  let s' := checkCycle net lookup a w in
  healthStatus (stored s') = "up"
  /\ failures (stored s') = 0
  /\ doc s' = stored s'
  /\ lastCheck (stored s') = probed + 2000
  /\ checks (stored s') = checks a + 1
  /\ uptime (stored s')
     = (inject_Z (checks a - failures a) / inject_Z (Z.max (checks a + 1) 1) * 100)%Q
  /\ appIncidents (stored s') = appIncidents a
  /\ attempts (world s') = S (attempts w).
Proof.
  intros Hp Hdown Hauto Hf Hr1 Hr2 Hr3. cbv zeta.
  destruct (probe_effect net (clock w) (load a w)) as [o [s1 [E [Hd [Hs [Hrej _]]]]]].
  assert (Es1 : exec (probe net (clock w)) (load a w) = s1)
    by (unfold exec; rewrite E; reflexivity).
  rewrite Es1.
  unfold result in Hp. rewrite E in Hp. cbn [fst] in Hp. injection Hp as ->.
  cbn [load doc stored world] in *.
  set (a1 := observed (probeStatus p) (Some (probeResponseTime p)) (clock (world s1)) a).
  assert (Hsar : shouldAutoRestart a1 = true).
  { apply shouldAutoRestart_true_iff. unfold a1. rewrite observed_failures, Hdown.
    cbn [String.eqb Ascii.eqb Bool.eqb orb]. repeat split; [exact Hauto | lia]. }
  (* the restart is attempted *)
  assert (Hatt : attempts (world (checkCycle net lookup a w)) = S (attempts w)).
  { pose proof (checkCycle_attempts net lookup a w p) as Hc.
    unfold result in Hc. rewrite E in Hc. specialize (Hc eq_refl Hr1).
    cbv zeta in Hc. rewrite Es1 in Hc. fold a1 in Hc. rewrite Hsar in Hc. exact Hc. }
  remember (attempts (world (checkCycle net lookup a w))) as n eqn:En. clear En.
  unfold checkCycle, checkAppHealth.
  rewrite (exec_bind_ok Date_now _ (load a w) (clock w) (load a w) eq_refl).
  cbn [load world].
  rewrite (exec_bind_ok _ _ _ _ _ E).
  cbv zeta.
  assert (E2 : updateHealthStatus (probeStatus p) (Some (probeResponseTime p)) s1
               = (Ok tt, {| doc := a1; stored := a1;
                            world := set_rejects (tl (rejects (world s1))) (world s1) |})).
  { rewrite updateHealthStatus_observed. unfold save. cbn [set_doc world doc]. rewrite Hd, Hrej.
    fold a1. destruct (rejects w) as [|[|] r]; [reflexivity | discriminate | reflexivity]. }
  rewrite (exec_bind_ok _ _ _ _ _ E2).
  match goal with |- context [exec _ ?s] => set (s2 := s) end.
  destruct (checkAlertConditions_effect lookup (probeStatus p) (Some (probeResponseTime p)) (probeError p) s2) as [evs [E3 Hevs]].
  rewrite (exec_bind_ok _ _ _ _ _ E3).
  rewrite (exec_bind_ok getDoc _ (logged evs s2) (doc s2) (logged evs s2) eq_refl).
  cbn [s2 doc]. rewrite Hsar.
  pose proof (attemptAutoRestart_restarts (logged evs s2)) as Hre.
  cbn [logged s2 set_world world rejects set_trace set_rejects doc] in Hre.
  rewrite Hrej in Hre. specialize (Hre Hr2 Hr3). cbv zeta in Hre.
  set (s3 := exec attemptAutoRestart _) in *.
  destruct Hre as [R1 [R2 [R3 [R4 [R5 [R6 [R7 _]]]]]]].
  assert (Hb : bothAre (doc s3)
                 (exec (bind attemptAutoRestart (fun _ =>
                     emitHealthUpdate ;; app' <- getDoc ;;
                     emit (LogDebug ("Health check completed for " ++ appName app' ++ ": "
                      ++ probeStatus p ++ " (" ++ showZ (probeResponseTime p) ++ "ms)"))))
                   (logged evs s2))).
  { apply preserves_after.
    - split; [reflexivity | exact R1].
    - intros _. apply preserves_bind; [apply bothAre_emitHealthUpdate|]. intros _.
      apply preserves_bind; [apply preserves_getDoc|]. intros app'.
      apply (preserves_emit _ (bothAre_world (doc s3))). }
  destruct Hb as [Hb1 Hb2].
  unfold logged in Hb1, Hb2. cbn [s2 world set_world] in Hb1, Hb2.
  unfold logged. cbn [s2 world set_world].
  rewrite Hb2, Hb1.
  split; [exact R2|]. split; [exact R3|]. split; [reflexivity|].
  split; [exact R7|].
  split; [rewrite R4; apply observed_checks|].
  split.
  { rewrite R5. unfold a1. rewrite observed_uptime, observed_checks, observed_failures, Hdown.
    cbn [String.eqb Ascii.eqb Bool.eqb orb].
    replace (checks a + 1 - (failures a + 1)) with (checks a - failures a) by lia.
    reflexivity. }
  split; [rewrite R6; apply observed_incidents|].
  exact Hatt.
Qed.

Lemma restarted_cycle_reports_up_witness :
  let a := downApp in
  let w := calm 1000 in
  let net := fails 80 "ECONNREFUSED" "connect ECONNREFUSED" in
  let probed := clock (world (exec (probe net (clock w)) (load a w))) in
  let s' := checkCycle net UserFound a w in
  healthStatus (stored s') = "up"
  /\ failures (stored s') = 0
  /\ doc s' = stored s'
  /\ lastCheck (stored s') = probed + 2000
  /\ checks (stored s') = checks a + 1
  /\ uptime (stored s')
     = (inject_Z (checks a - failures a) / inject_Z (Z.max (checks a + 1) 1) * 100)%Q
  /\ appIncidents (stored s') = appIncidents a
  /\ attempts (world s') = S (attempts w).
Proof.
  apply (restarted_cycle_reports_up
           (fails 80 "ECONNREFUSED" "connect ECONNREFUSED") UserFound downApp (calm 1000)
           {| probeStatus := "down"; probeResponseTime := 80;
              probeError := Some "connect ECONNREFUSED" |});
    first [reflexivity | vm_compute; discriminate | idtac].
Defined.
